(** * Attack activity data model (module/data/activity/attack-data.mjs)

    A shallow embedding of [AttackActivityData]: its getters ([ability],
    [actionType], [availableAbilities], [criticalThreshold]), the legacy
    migration [transformTypeData], the two preparation phases
    [prepareData] / [prepareFinalData], and the roll helpers
    [getAttackData] / [_processDamagePart].

    JavaScript objects that are mutated in place are modelled by explicit
    state passing: a method that writes to [this] returns the new activity,
    a method that writes to an argument returns the new argument. *)

From Stdlib Require Import ZArith String List Bool Lia.
From Stdlib Require Import DecimalString.
From stdpp Require Import base option gmap strings list fin_maps.
Import ListNotations.

Local Open Scope Z_scope.
Local Open Scope string_scope.

(* ===================================================================== *)
(** ** JavaScript values *)
(* ===================================================================== *)

(** A loosely typed JavaScript value, for the places where the source does
    not fix the type (roll data entries, flags, formula terms).  [JUndef]
    stands for both [undefined] and [null]: the source only ever tests
    them together ([??], [?.], truthiness). *)
Inductive jsval : Type :=
| JUndef
| JNum (n : Z)
| JStr (s : string).

(** An optional string field ([StringField] / [FormulaField]); [None] is
    [undefined]. *)
Abbreviation jsstr := (option string).

(** JavaScript truthiness. *)
Definition truthy (v : jsval) : bool :=
  match v with
  | JUndef => false
  | JNum n => negb (Z.eqb n 0)
  | JStr s => negb (String.eqb s "")
  end.

Definition truthy_str (s : jsstr) : bool :=
  match s with
  | Some s => negb (String.eqb s "")
  | None => false
  end.

(** [s === lit] for an optional string. *)
Definition str_is (s : jsstr) (lit : string) : bool :=
  match s with
  | Some s => String.eqb s lit
  | None => false
  end.

(** [String(v)] as used by [Array.prototype.join]; [null]/[undefined]
    elements join as the empty string. *)
Definition to_string (v : jsval) : string :=
  match v with
  | JUndef => ""
  | JNum n => NilZero.string_of_int (Z.to_int n)
  | JStr s => s
  end.

(** [parts.join(sep)]. *)
Fixpoint join (sep : string) (parts : list jsval) : string :=
  match parts with
  | [] => ""
  | [p] => to_string p
  | p :: rest => to_string p ++ sep ++ join sep rest
  end.

(** [s.includes(needle)]. *)
Fixpoint includes (s needle : string) : bool :=
  String.prefix needle s ||
  match s with
  | EmptyString => false
  | String _ rest => includes rest needle
  end.

(** [s.startsWith(p)] and [s.endsWith(p)]. *)
Definition startsWith (s p : string) : bool := String.prefix p s.

Definition endsWith (s p : string) : bool :=
  let n := String.length s in
  let k := String.length p in
  (k <=? n)%nat && String.eqb (String.substring (n - k) k s) p.

(** A JavaScript [Set] of strings, kept as the list of its elements in
    insertion order.  [new Set(array)] keeps the first occurrence of each
    element. *)
Abbreviation jsset := (list string).

Fixpoint set_add_all (seen : jsset) (xs : list string) : jsset :=
  match xs with
  | [] => seen
  | x :: rest =>
      if bool_decide (x ∈ seen) then set_add_all seen rest
      else set_add_all (seen ++ [x])%list rest
  end.

Definition new_Set (xs : list string) : jsset := set_add_all [] xs.

(** Numbers extended with the infinities that the source uses as neutral
    elements of [Math.min] and of the "largest modifier" search. *)
Inductive extnum : Type :=
| NegInf
| Fin (n : Z)
| PosInf.

Definition ext_ltb (x y : extnum) : bool :=
  match x, y with
  | NegInf, NegInf => false
  | NegInf, _ => true
  | Fin _, NegInf => false
  | Fin a, Fin b => Z.ltb a b
  | Fin _, PosInf => true
  | PosInf, _ => false
  end.

Definition ext_min (x y : extnum) : extnum := if ext_ltb y x then y else x.

(** [v ?? Infinity] and [v ?? -Infinity]. *)
Definition or_PosInf (v : option Z) : extnum := from_option Fin PosInf v.
Definition or_NegInf (v : option Z) : extnum := from_option Fin NegInf v.

(* ===================================================================== *)
(** ** Data model *)
(* ===================================================================== *)

(** One damage term ([DamageData]).  The fields that the attack activity
    reads or writes are listed by name; [dp_other] holds the remaining
    ones, from which the [formula] getter is computed. *)
Record DamagePart : Type := mkDamagePart {
  dp_number : jsval;
  dp_denomination : jsval;
  dp_types : jsset;
  dp_base : bool;
  dp_other : gmap string jsval
}.

Record AttackType : Type := mkAttackType {
  type_value : jsstr;
  type_classification : jsstr
}.

Record Attack : Type := mkAttack {
  attack_ability : jsstr;
  attack_bonus : jsstr;
  attack_critical_threshold : option Z;
  attack_flat : bool;
  attack_type : AttackType
}.

Record Damage : Type := mkDamage {
  damage_critical_bonus : jsstr;
  damage_includeBase : bool;
  damage_parts : list DamagePart
}.

(** The attack activity.  [inherited] holds the fields declared by
    [BaseActivityData] (the part of [...super.defineSchema()]), [labels]
    the computed display labels. *)
Record Activity : Type := mkActivity {
  inherited : gmap string jsval;
  attack : Attack;
  damage : Damage;
  labels : gmap string jsval
}.

(** [item.system.prof]. *)
Record Proficiency : Type := mkProficiency {
  hasProficiency : bool;
  term : jsval
}.

(** [item.system.damage]. *)
Record ItemDamage : Type := mkItemDamage {
  damage_base : option DamagePart;
  damage_versatile : option DamagePart
}.

(** The owning item: its [type] and the properties of [item.system] that
    the activity reads. *)
Record Item : Type := mkItem {
  item_type : string;
  item_availableAbilities : option jsset;
  item_criticalThreshold : option Z;
  item_attackType : jsstr;
  item_attackClassification : jsstr;
  item_prof : option Proficiency;
  item_magicalBonus : jsval;
  item_magicAvailable : bool;
  item_isVersatile : bool;
  item_damage : option ItemDamage
}.

(** [actor.system.abilities[id]]. *)
Record AbilityData : Type := mkAbilityData {
  ability_mod : option Z
}.

(** [actor.system.bonuses[actionType]]. *)
Record ActorBonus : Type := mkActorBonus {
  bonus_attack : jsstr
}.

(** The actor, when there is one.  [actor_spellcastingClasses] lists the
    spellcasting ability of each class in the order of
    [Object.values(actor.spellcastingClasses)]. *)
Record Actor : Type := mkActor {
  actor_type : string;
  actor_abilities : gmap string AbilityData;
  actor_bonuses : option (gmap string ActorBonus);
  actor_spellcasting : jsstr;
  actor_spellcastingClasses : list string;
  actor_meleeCriticalDamageDice : jsval
}.

(** [CONFIG.DND5E.defaultAbilities]. *)
Record DefaultAbilities : Type := mkDefaultAbilities {
  meleeAttack : string;
  rangedAttack : string
}.

(* ===================================================================== *)
(** ** Properties *)
(* ===================================================================== *)

(** [get actionType()]. *)
Definition actionType (act : Activity) : string :=
  let type := attack_type (attack act) in
  (if str_is (type_value type) "ranged" then "r" else "m") ++
  (if str_is (type_classification type) "spell" then "sak" else "wak").

(** [get criticalThreshold()]; the ammunition threshold is declared but
    never assigned, so it is always replaced by [Infinity]. *)
Definition criticalThreshold (act : Activity) (item : Item) : Z :=
  let ammoThreshold : option Z := None in
  let threshold :=
    ext_min (ext_min (or_PosInf (attack_critical_threshold (attack act)))
                     (or_PosInf (item_criticalThreshold item)))
            (or_PosInf ammoThreshold) in
  match threshold with
  | Fin t => t
  | _ => 20
  end.

Section Abilities.

Variable defaultAbilities : DefaultAbilities.

(** [get availableAbilities()]. *)
Definition availableAbilities
    (act : Activity) (item : Item) (actor : option Actor) : jsset :=
  match item_availableAbilities item with
  | Some abilities => abilities
  | None =>
      if str_is (type_classification (attack_type (attack act))) "spell" then
        new_Set
          (match actor with
           | Some a =>
               match actor_spellcasting a with
               | Some s =>
                   if String.eqb s "" then actor_spellcastingClasses a
                   else [s]
               | None => actor_spellcastingClasses a
               end
           | None => []
           end)
      else
        let melee := meleeAttack defaultAbilities in
        let ranged := rangedAttack defaultAbilities in
        if from_option (fun a => String.eqb (actor_type a) "npc") false actor
        then new_Set [melee; ranged]
        else new_Set [if str_is (type_value (attack_type (attack act))) "melee"
                      then melee else ranged]
  end.

(** [abilities[id]?.mod ?? -Infinity] with
    [abilities = this.actor?.system.abilities ?? {}]. *)
Definition mod_of (actor : option Actor) (id : string) : extnum :=
  or_NegInf (actor ≫= fun a => actor_abilities a !! id ≫= ability_mod).

(** [a] has a strictly smaller modifier than [b]; [a] has a modifier
    that is not larger than that of [b]. *)
Definition below (actor : option Actor) (b a : string) : Prop :=
  ext_ltb (mod_of actor a) (mod_of actor b) = true.

Definition not_above (actor : option Actor) (b a : string) : Prop :=
  ext_ltb (mod_of actor b) (mod_of actor a) = false.

(** The reducer of [get ability()]. *)
Definition larger (actor : option Actor) (largest ability : string) : string :=
  if ext_ltb (mod_of actor largest) (mod_of actor ability)
  then ability else largest.

(** [get ability()]; [None] is the [null] result. *)
Definition ability
    (act : Activity) (item : Item) (actor : option Actor) : option string :=
  let available := availableAbilities act item actor in
  match available with
  | [] => None
  | [only] => Some only
  | first :: _ => Some (fold_left (larger actor) available first)
  end.

End Abilities.

(* ===================================================================== *)
(** ** Collaborators outside this module *)
(* ===================================================================== *)

(** A legacy damage part, a [[formula, type]] pair. *)
Abbreviation LegacyPart := (string * string)%type.

(** [source.system.attack] and [source.system.critical] of a legacy item. *)
Record LegacyAttack : Type := mkLegacyAttack {
  legacy_bonus : jsstr;
  legacy_flat : option bool
}.

Record LegacyCritical : Type := mkLegacyCritical {
  legacy_threshold : option Z;
  legacy_damage : jsstr
}.

(** The legacy item source handed to [transformTypeData]: [source.type]
    and the fields of [source.system] that are read.  [sys_damage_parts]
    is [source.system.damage?.parts]: the outer option is the [damage]
    object, the inner one its [parts] property. *)
Record Source : Type := mkSource {
  source_type : string;
  sys_ability : jsstr;
  sys_attack : option LegacyAttack;
  sys_critical : option LegacyCritical;
  sys_actionType : jsstr;
  sys_damage_parts : option (option (list LegacyPart))
}.

(** [rollConfig], of which only the attack mode is read. *)
Record RollConfig : Type := mkRollConfig {
  mode : jsstr
}.

(** The roll configuration built for one damage part.  [roll_options] is
    keyed by property path, as [foundry.utils.setProperty] takes it. *)
Record Roll : Type := mkRoll {
  roll_data : gmap string jsval;
  roll_parts : list string;
  roll_options : gmap string jsval;
  roll_base : bool
}.

(** Everything the module imports or inherits and that is defined
    elsewhere: the base class [BaseActivityData], [DamageField], the dice
    helpers and the JavaScript number conversions. *)
Record Host : Type := mkHost {
  (** [this.getRollData({ deterministic })] *)
  getRollData : bool -> Activity -> Item -> option Actor -> gmap string jsval;
  (** [super.prepareData()], on the inherited fields and the labels *)
  super_prepareData :
    gmap string jsval * gmap string jsval -> gmap string jsval * gmap string jsval;
  (** [super.prepareFinalData(rollData)], likewise *)
  super_prepareFinalData :
    Activity -> Item -> option Actor -> gmap string jsval ->
    gmap string jsval * gmap string jsval;
  (** [this.prepareDamageLabel(parts, rollData)], writing labels *)
  prepareDamageLabel :
    list DamagePart -> gmap string jsval -> gmap string jsval -> gmap string jsval;
  (** [simplifyRollFormula(formula, { deterministic })] *)
  simplifyRollFormula : string -> bool -> string;
  (** [new Roll(formula, data).formula] *)
  Roll_formula : string -> gmap string jsval -> string;
  (** [super._processDamagePart(damage, rollConfig, rollData)] *)
  super_processDamagePart :
    DamagePart -> RollConfig -> gmap string jsval -> Roll;
  (** [damage.steppedDenomination()] and the [damage.formula] getter *)
  steppedDenomination : DamagePart -> jsval;
  formula : DamagePart -> jsstr;
  (** [this.transformDamagePartData(source, part)] *)
  transformDamagePartData : Source -> LegacyPart -> DamagePart;
  (** [foundry.utils.mergeObject(activityData, { attack, damage })] *)
  mergeObject : gmap string jsval -> Attack -> Damage -> Activity;
  (** [Number(s)] and [parseInt(s)] on strings; [None] is [NaN] *)
  toNumber : string -> option Z;
  parseInt : string -> option Z
}.

(** [v < 0] and [parseInt(v) !== 0] on loosely typed values. *)
Definition js_negative (host : Host) (v : option jsval) : bool :=
  match v with
  | Some (JNum n) => Z.ltb n 0
  | Some (JStr s) => from_option (fun n => Z.ltb n 0) false (toNumber host s)
  | _ => false
  end.

Definition js_parseInt (host : Host) (v : jsval) : option Z :=
  match v with
  | JUndef => None
  | JNum n => Some n
  | JStr s => parseInt host s
  end.

(* ===================================================================== *)
(** ** Data migrations *)
(* ===================================================================== *)

(** [static transformTypeData(source, activityData)].  The first component
    of the result is [source] as the call leaves it; the second is the
    returned activity data, or [None] when reading
    [source.system.actionType.startsWith] throws. *)
Definition transformTypeData (host : Host)
    (source : Source) (activityData : gmap string jsval)
  : Source * option Activity :=
  let damageParts := default [] (default None (sys_damage_parts source)) in
  let '(source, damageParts) :=
    if String.eqb (source_type source) "weapon" then
      match damageParts with
      | base :: rest =>
          ({| source_type := source_type source;
              sys_ability := sys_ability source;
              sys_attack := sys_attack source;
              sys_critical := sys_critical source;
              sys_actionType := sys_actionType source;
              sys_damage_parts := Some (Some [base]) |}, rest)
      | [] => (source, damageParts)
      end
    else (source, damageParts) in
  (source,
   actionType ← sys_actionType source;
   Some (mergeObject host activityData
     {| attack_ability := Some (default "" (sys_ability source));
        attack_bonus := Some (default "" (sys_attack source ≫= legacy_bonus));
        attack_critical_threshold := sys_critical source ≫= legacy_threshold;
        attack_flat := default false (sys_attack source ≫= legacy_flat);
        attack_type :=
          {| type_value :=
               Some (if startsWith actionType "m" then "melee" else "ranged");
             type_classification :=
               Some (if endsWith actionType "wak" then "weapon" else "spell") |} |}
     {| damage_critical_bonus := sys_critical source ≫= legacy_damage;
        damage_includeBase := true;
        damage_parts := map (transformDamagePartData host source) damageParts |})).

(* ===================================================================== *)
(** ** Data preparation *)
(* ===================================================================== *)

(** [target ||= value ?? ""]. *)
Definition fill_if_empty (target value : jsstr) : jsstr :=
  if truthy_str target then target else Some (default "" value).

(** [prepareData()]. *)
Definition prepareData (host : Host) (act : Activity) (item : Item) : Activity :=
  let '(inh, lbl) := super_prepareData host (inherited act, labels act) in
  let a := attack act in
  let t := attack_type a in
  {| inherited := inh;
     attack :=
       {| attack_ability := attack_ability a;
          attack_bonus := attack_bonus a;
          attack_critical_threshold := attack_critical_threshold a;
          attack_flat := attack_flat a;
          attack_type :=
            {| type_value := fill_if_empty (type_value t) (item_attackType item);
               type_classification :=
                 fill_if_empty (type_classification t)
                               (item_attackClassification item) |} |};
     damage := damage act;
     labels := lbl |}.

(** [getAttackData()]: the evaluation context and the formula terms. *)
Definition getAttackData (host : Host)
    (act : Activity) (item : Item) (actor : option Actor)
  : gmap string jsval * list jsval :=
  let data := getRollData host false act item actor in
  let parts : list jsval := [] in
  let '(data, parts) :=
    match actor with
    | Some actor' =>
        if negb (attack_flat (attack act)) then
          (* Ability modifier & proficiency bonus *)
          let parts :=
            if negb (str_is (attack_ability (attack act)) "none")
            then (parts ++ [JStr "@mod"])%list else parts in
          let '(data, parts) :=
            match item_prof item with
            | Some prof =>
                if hasProficiency prof
                then (<["prof" := term prof]> data, (parts ++ [JStr "@prof"])%list)
                else (data, parts)
            | None => (data, parts)
            end in
          (* Actor-level global bonus to attack rolls *)
          let actorBonus := actor_bonuses actor' ≫= fun b => b !! actionType act in
          let parts :=
            match actorBonus ≫= bonus_attack with
            | Some b => if String.eqb b "" then parts else (parts ++ [JStr b])%list
            | None => parts
            end in
          (data, parts)
        else (data, parts)
    | None => (data, parts)
    end in
  (* Include the activity's attack bonus & item's magical bonus *)
  let parts :=
    match attack_bonus (attack act) with
    | Some b => if String.eqb b "" then parts else (parts ++ [JStr b])%list
    | None => parts
    end in
  let parts :=
    if truthy (item_magicalBonus item) && item_magicAvailable item
       && negb (attack_flat (attack act))
    then (parts ++ [item_magicalBonus item])%list else parts in
  (data, parts).

(** [!/^[+-]/.test(formula) ? `+ ${formula}` : formula]. *)
Definition toHit_label (formula : string) : string :=
  if startsWith formula "+" || startsWith formula "-" then formula
  else "+ " ++ formula.

(** [s || "0"]. *)
Definition or_zero (s : string) : string := if String.eqb s "" then "0" else s.

(** [prepareFinalData(rollData)]; [rollData = None] is the call without
    argument. *)
Definition prepareFinalData (host : Host)
    (act : Activity) (item : Item) (actor : option Actor)
    (rollData : option (gmap string jsval)) : Activity :=
  let act :=
    match item_damage item ≫= damage_base with
    | Some base =>
        if damage_includeBase (damage act) && truthy_str (formula host base) then
          let basePart :=
            {| dp_number := dp_number base;
               dp_denomination := dp_denomination base;
               dp_types := dp_types base;
               dp_base := true;
               dp_other := dp_other base |} in
          {| inherited := inherited act;
             attack := attack act;
             damage :=
               {| damage_critical_bonus := damage_critical_bonus (damage act);
                  damage_includeBase := damage_includeBase (damage act);
                  damage_parts := basePart :: damage_parts (damage act) |};
             labels := labels act |}
        else act
    | None => act
    end in
  let rollData := default (getRollData host true act item actor) rollData in
  let '(inh, lbl) := super_prepareFinalData host act item actor rollData in
  let lbl := prepareDamageLabel host (damage_parts (damage act)) rollData lbl in
  let act :=
    {| inherited := inh; attack := attack act; damage := damage act;
       labels := lbl |} in
  let '(data, parts) := getAttackData host act item actor in
  let roll_formula := Roll_formula host (join "+" parts) data in
  let lbl :=
    <["modifier" := JStr (or_zero (simplifyRollFormula host roll_formula true))]> lbl in
  let formula := or_zero (simplifyRollFormula host roll_formula false) in
  let lbl := <["toHit" := JStr (toHit_label formula)]> lbl in
  {| inherited := inh; attack := attack act; damage := damage act;
     labels := lbl |}.

(* ===================================================================== *)
(** ** Helpers *)
(* ===================================================================== *)

(** [target ||= value] on loosely typed values. *)
Definition or_assign (target value : jsval) : jsval :=
  if truthy target then target else value.

(** The versatile swap of [_processDamagePart]: the damage part that is
    handed to the inherited method.  [versatile] is a clone, so the writes
    below never reach the item.  [None] is the [TypeError] raised when a
    versatile item has no [system.damage.versatile]. *)
Definition swapVersatile (host : Host)
    (item : Item) (damage : DamagePart) (rollConfig : RollConfig)
  : option DamagePart :=
  if item_isVersatile item && str_is (mode rollConfig) "twoHanded" then
    versatile ← item_damage item ≫= damage_versatile;
    Some {| dp_number := or_assign (dp_number versatile) (dp_number damage);
            dp_denomination :=
              or_assign (dp_denomination versatile)
                        (steppedDenomination host damage);
            dp_types := dp_types damage;
            dp_base := true;
            dp_other := dp_other versatile |}
  else Some damage.

(** [_processDamagePart(damage, rollConfig, rollData)]; [None] is a
    [TypeError] of the versatile swap.

    The first statement calls the inherited method for a part that is not
    the base part and drops what it returns; control then continues with
    the rest of the body for every part. *)
Definition _processDamagePart (host : Host)
    (act : Activity) (item : Item) (actor : option Actor)
    (damage : DamagePart) (rollConfig : RollConfig)
    (rollData : gmap string jsval) : option Roll :=
  let _dropped :=
    if negb (dp_base damage)
    then Some (super_processDamagePart host damage rollConfig rollData)
    else None in
  (* Swap base damage for versatile if two-handed attack is made on
     versatile weapon *)
  damage ← swapVersatile host item damage rollConfig;
  let roll := super_processDamagePart host damage rollConfig rollData in
  let data := roll_data roll in
  let parts := roll_parts roll in
  let '(data, parts) :=
    if String.eqb (item_type item) "weapon" then
      (* Ensure `@mod` is present in damage unless it is positive and an
         off-hand attack *)
      let includeMod :=
        negb (str_is (mode rollConfig) "offHand")
        || js_negative host (data !! "mod") in
      let parts :=
        if includeMod && negb (existsb (fun p => includes p "@mod") parts)
        then (parts ++ ["@mod"])%list else parts in
      (* Add magical bonus *)
      if truthy (item_magicalBonus item) && item_magicAvailable item
      then (<["magicalBonus" := item_magicalBonus item]> data,
            (parts ++ ["@magicalBonus"])%list)
      else (data, parts)
    else (data, parts) in
  let criticalBonusDice :=
    match actor with
    | Some a =>
        match actor_meleeCriticalDamageDice a with
        | JUndef => JNum 0
        | v => v
        end
    | None => JNum 0
    end in
  let options :=
    if String.eqb (actionType act) "mwak"
       && negb (bool_decide (js_parseInt host criticalBonusDice = Some 0))
    then <["critical.bonusDice" := criticalBonusDice]> (roll_options roll)
    else roll_options roll in
  Some {| roll_data := data; roll_parts := parts;
          roll_options := options; roll_base := true |}.

(* ===================================================================== *)
(** ** Damage roll configuration *)
(* ===================================================================== *)

(** The roll configuration that [getDamageConfig] returns: its [critical]
    object, when there is one, and the rest of its properties. *)
Record DamageConfig : Type := mkDamageConfig {
  config_critical : option (gmap string jsval);
  config_other : gmap string jsval
}.

(** [obj[key] ??= value]: the property is written only when it is missing,
    [undefined] or [null]. *)
Definition nullish_assign (key : string) (value : jsval)
    (obj : gmap string jsval) : gmap string jsval :=
  match obj !! key with
  | None | Some JUndef => <[key := value]> obj
  | Some _ => obj
  end.

(** [getDamageConfig(config)]; [super_getDamageConfig] is the inherited
    method that builds the configuration. *)
Definition getDamageConfig
    (super_getDamageConfig : DamageConfig -> DamageConfig)
    (act : Activity) (config : DamageConfig) : DamageConfig :=
  let rollConfig := super_getDamageConfig config in
  if truthy_str (damage_critical_bonus (damage act)) then
    {| config_critical :=
         Some (nullish_assign "bonusDamage"
                 (JStr (default "" (damage_critical_bonus (damage act))))
                 (default ∅ (config_critical rollConfig)));
       config_other := config_other rollConfig |}
  else rollConfig.

(* ===================================================================== *)
(** ** Repeated preparation *)
(* ===================================================================== *)

(** The base damage that [prepareFinalData] unshifts onto the damage
    parts, if any. *)
Definition basePart (host : Host) (act : Activity) (item : Item)
  : list DamagePart :=
  match item_damage item ≫= damage_base with
  | Some base =>
      if damage_includeBase (damage act) && truthy_str (formula host base)
      then [{| dp_number := dp_number base;
               dp_denomination := dp_denomination base;
               dp_types := dp_types base;
               dp_base := true;
               dp_other := dp_other base |}]
      else []
  | None => []
  end.

(** [n] calls of [prepareFinalData()] in a row on the same activity. *)
Fixpoint finalPasses (host : Host) (n : nat)
    (act : Activity) (item : Item) (actor : option Actor) : Activity :=
  match n with
  | O => act
  | S n => prepareFinalData host (finalPasses host n act item actor) item actor None
  end.

(** The action-type code of an attack type, as [actionType] derives it. *)
Definition actionCode (value classification : jsstr) : string :=
  (if str_is value "ranged" then "r" else "m") ++
  (if str_is classification "spell" then "sak" else "wak").

(* ===================================================================== *)
(** ** The attack term list, term by term *)
(* ===================================================================== *)

(** The terms contributed by one conditional [parts.push(t)]: [t] under
    its condition, and [s] when it is a non-empty string. *)
Definition term_if (condition : bool) (t : jsval) : list jsval :=
  if condition then [t] else [].

Definition str_term (s : jsstr) : list jsval :=
  match s with
  | Some s => if String.eqb s "" then [] else [JStr s]
  | None => []
  end.

(* ===================================================================== *)
(** ** Sample data *)
(* ===================================================================== *)

(** The defaults shipped in the system configuration. *)
Definition dnd5e_defaults : DefaultAbilities :=
  {| meleeAttack := "str"; rangedAttack := "dex" |}.

(** A host that interprets every collaborator in the simplest way; it is
    used to run the definitions on concrete inputs. *)
Definition plain_formula (d : DamagePart) : jsstr :=
  match dp_other d !! "formula" with
  | Some (JStr s) => Some s
  | _ => None
  end.

Definition plain_host : Host :=
  {| getRollData := fun _ _ _ _ => ∅;
     super_prepareData := fun s => s;
     super_prepareFinalData := fun act _ _ _ => (inherited act, labels act);
     prepareDamageLabel := fun _ _ lbl => lbl;
     simplifyRollFormula := fun s _ => s;
     Roll_formula := fun s _ => s;
     super_processDamagePart := fun d _ rollData =>
       {| roll_data := rollData;
          roll_parts := match plain_formula d with Some f => [f] | None => [] end;
          roll_options := ∅;
          roll_base := false |};
     steppedDenomination := dp_denomination;
     formula := plain_formula;
     transformDamagePartData := fun _ part =>
       {| dp_number := JUndef; dp_denomination := JUndef;
          dp_types := [snd part]; dp_base := false;
          dp_other := {["formula" := JStr (fst part)]} |};
     mergeObject := fun inh a d =>
       {| inherited := inh; attack := a; damage := d; labels := ∅ |};
     toNumber := fun _ => None;
     parseInt := fun _ => None |}.

Definition sample_attack (ability bonus : jsstr) (threshold : option Z)
    (flat : bool) (value classification : jsstr) : Attack :=
  {| attack_ability := ability; attack_bonus := bonus;
     attack_critical_threshold := threshold; attack_flat := flat;
     attack_type := {| type_value := value;
                       type_classification := classification |} |}.

Definition sample_activity (a : Attack) (includeBase : bool)
    (parts : list DamagePart) : Activity :=
  {| inherited := ∅; attack := a;
     damage := {| damage_critical_bonus := None;
                  damage_includeBase := includeBase;
                  damage_parts := parts |};
     labels := ∅ |}.

(** A melee weapon attack with nothing set explicitly. *)
Definition melee_weapon_attack : Attack :=
  sample_attack (Some "") (Some "") None false (Some "melee") (Some "weapon").

Definition sample_part (number denomination : jsval) (types : jsset)
    (base : bool) (f : string) : DamagePart :=
  {| dp_number := number; dp_denomination := denomination;
     dp_types := types; dp_base := base;
     dp_other := {["formula" := JStr f]} |}.

(** A longsword: 1d8 slashing, versatile. *)
Definition longsword_base : DamagePart :=
  sample_part (JNum 1) (JStr "d8") ["slashing"] false "1d8".

Definition sample_item (abilities : option jsset) (threshold : option Z)
    (prof : option Proficiency) (magicalBonus : jsval) (versatile : bool)
    (dmg : option ItemDamage) : Item :=
  {| item_type := "weapon";
     item_availableAbilities := abilities;
     item_criticalThreshold := threshold;
     item_attackType := Some "melee";
     item_attackClassification := Some "weapon";
     item_prof := prof;
     item_magicalBonus := magicalBonus;
     item_magicAvailable := true;
     item_isVersatile := versatile;
     item_damage := dmg |}.

Definition sample_actor (kind : string) (abilities : list (string * Z))
    (bonuses : list (string * string)) : Actor :=
  {| actor_type := kind;
     actor_abilities :=
       list_to_map (map (fun p => (fst p, {| ability_mod := Some (snd p) |}))
                        abilities);
     actor_bonuses :=
       Some (list_to_map
               (map (fun p => (fst p, {| bonus_attack := Some (snd p) |}))
                    bonuses));
     actor_spellcasting := None;
     actor_spellcastingClasses := [];
     actor_meleeCriticalDamageDice := JUndef |}.

(** A proficient +1 weapon and a character with Strength +3 and a global
    bonus of +1 to melee weapon attacks. *)
Definition magic_sword : Item :=
  sample_item None None (Some {| hasProficiency := true; term := JStr "+2" |})
              (JNum 1) false None.

Definition hero : Actor :=
  sample_actor "character" [("str", 3)] [("mwak", "+1")].

Definition attack_activity (ability bonus : string) (flat : bool) : Activity :=
  sample_activity
    (sample_attack (Some ability) (Some bonus) None flat
                   (Some "melee") (Some "weapon"))
    true [].

(** A longsword that carries its base damage, and a legacy weapon record
    with two damage parts. *)
Definition longsword : Item :=
  sample_item None None None JUndef false
    (Some {| damage_base := Some longsword_base; damage_versatile := None |}).

Definition legacy_flametongue : Source :=
  {| source_type := "weapon";
     sys_ability := None;
     sys_attack := None;
     sys_critical := None;
     sys_actionType := Some "mwak";
     sys_damage_parts := Some (Some [("1d8", "slashing"); ("2d6", "fire")]) |}.

(** A part of bonus fire damage, not tagged as base damage; a versatile
    longsword whose two-handed damage sets its own die and its own type;
    the attack modes. *)
Definition fire_part : DamagePart :=
  sample_part (JNum 1) (JStr "d6") ["fire"] false "1d6".

Definition versatile_longsword : Item :=
  sample_item None None None JUndef true
    (Some {| damage_base := Some longsword_base;
             damage_versatile :=
               Some (sample_part JUndef (JStr "d10") ["bludgeoning"] false "1d10") |}).

Definition oneHanded : RollConfig := {| mode := Some "oneHanded" |}.
Definition twoHanded : RollConfig := {| mode := Some "twoHanded" |}.

(** The longsword's base damage as the final phase puts it in front of the
    damage parts, tagged [base = true]. *)
Definition longsword_base_tagged : DamagePart :=
  sample_part (JNum 1) (JStr "d8") ["slashing"] true "1d8".

(** A multiclassed caster: two classes cast with Intelligence, one with
    Wisdom; no single spellcasting ability is designated. *)
Definition multiclass_caster : Actor :=
  {| actor_type := "character";
     actor_abilities :=
       {["int" := {| ability_mod := Some 2 |}]} ∪ {["wis" := {| ability_mod := Some 4 |}]};
     actor_bonuses := None;
     actor_spellcasting := None;
     actor_spellcastingClasses := ["int"; "wis"; "int"];
     actor_meleeCriticalDamageDice := JUndef |}.

(** A creature with a designated spellcasting ability. *)
Definition innate_caster : Actor :=
  {| actor_type := "npc";
     actor_abilities := {["cha" := {| ability_mod := Some 1 |}]};
     actor_bonuses := None;
     actor_spellcasting := Some "cha";
     actor_spellcastingClasses := ["int"];
     actor_meleeCriticalDamageDice := JUndef |}.

Definition spell_attack : Activity :=
  sample_activity
    (sample_attack (Some "") (Some "") None false (Some "ranged") (Some "spell"))
    true [].

(** An item that declares no abilities of its own. *)
Definition plain_item : Item := sample_item None None None JUndef false None.

(** A +1 longsword, an off-hand attack, a fighter whose melee criticals
    roll one more die, and a base part that already carries ["@mod"]. *)
Definition longsword_plus_one : Item :=
  sample_item None None None (JNum 1) false
    (Some {| damage_base := Some longsword_base; damage_versatile := None |}).

Definition offHand : RollConfig := {| mode := Some "offHand" |}.

Definition brutal_fighter : Actor :=
  {| actor_type := "character";
     actor_abilities := {["str" := {| ability_mod := Some 3 |}]};
     actor_bonuses := None;
     actor_spellcasting := None;
     actor_spellcastingClasses := [];
     actor_meleeCriticalDamageDice := JNum 1 |}.

(** A versatile item whose versatile damage is missing. *)
Definition broken_versatile : Item :=
  sample_item None None None JUndef true None.

(* ===================================================================== *)
(** ** Extended numbers and sets *)
(* ===================================================================== *)

Lemma ext_ltb_irrefl (x : extnum) : ext_ltb x x = false.
Proof. destruct x; simpl; auto using Z.ltb_irrefl. Qed.

Lemma ext_ltb_trans (x y z : extnum) :
  ext_ltb x y = true -> ext_ltb y z = true -> ext_ltb x z = true.
Proof.
  destruct x, y, z; simpl; try congruence.
  rewrite !Z.ltb_lt. lia.
Qed.

(** [y <= x] and [x < z] give [y < z]. *)
Lemma ext_leb_ltb_trans (x y z : extnum) :
  ext_ltb x y = false -> ext_ltb x z = true -> ext_ltb y z = true.
Proof.
  destruct x, y, z; simpl; try congruence.
  rewrite Z.ltb_ge, !Z.ltb_lt. lia.
Qed.

Lemma ext_min_PosInf (x y : extnum) :
  ext_min x y = PosInf <-> x = PosInf /\ y = PosInf.
Proof.
  unfold ext_min. destruct x, y; simpl; try (intuition congruence).
  destruct (Z.ltb n0 n); intuition congruence.
Qed.

Lemma or_PosInf_inf (v : option Z) : or_PosInf v = PosInf <-> v = None.
Proof. destruct v; simpl; intuition congruence. Qed.


(* ===================================================================== *)
(** ** Critical threshold *)
(* ===================================================================== *)

Example criticalThreshold_19 :
  criticalThreshold
    (sample_activity
       (sample_attack None None (Some 19) false (Some "melee") (Some "weapon"))
       true [])
    (sample_item None None None JUndef false None) = 19.
Proof. reflexivity. Qed.

Example criticalThreshold_default :
  criticalThreshold (sample_activity melee_weapon_attack true [])
                    (sample_item None None None JUndef false None) = 20.
Proof. reflexivity. Qed.

Example criticalThreshold_item_lower :
  criticalThreshold
    (sample_activity
       (sample_attack None None (Some 19) false (Some "melee") (Some "weapon"))
       true [])
    (sample_item None (Some 18) None JUndef false None) = 18.
Proof. reflexivity. Qed.

(** C6. The critical threshold is the minimum of the activity override and
    the item override, an unset override counting as +Infinity in that
    minimum: with both set it is the smaller one, with one set it is that
    one.  The minimum is still infinite exactly when every override is
    unset, and that is the case in which 20 is substituted.  So an activity
    override of 19 with no item override gives 19, and no override at all
    gives 20. *)
Theorem criticalThreshold_minimum (act : Activity) (item : Item) :
  let a := attack_critical_threshold (attack act) in
  let i := item_criticalThreshold item in
  let m := ext_min (or_PosInf a) (or_PosInf i) in
  criticalThreshold act item = match m with Fin t => t | _ => 20 end
  /\ (m = PosInf <-> a = None /\ i = None)
  /\ criticalThreshold act item =
       match a, i with
       | Some x, Some y => Z.min x y
       | Some x, None => x
       | None, Some y => y
       | None, None => 20
       end.
Proof.
  unfold criticalThreshold. cbv zeta.
  destruct (attack_critical_threshold (attack act)) as [x|],
           (item_criticalThreshold item) as [y|];
    cbn [or_PosInf from_option]; unfold ext_min; cbn [ext_ltb].
  - destruct (Z.ltb_spec y x); cbn [ext_ltb];
      (split; [reflexivity | split; [intuition congruence | lia]]).
  - split; [reflexivity | split; [intuition congruence | reflexivity]].
  - split; [reflexivity | split; [intuition congruence | reflexivity]].
  - split; [reflexivity | split; [intuition congruence | reflexivity]].
Qed.

(* ===================================================================== *)
(** ** Ability resolution *)
(* ===================================================================== *)

Section AbilityFacts.

Variable actor : option Actor.

Lemma larger_same (a : string) : larger actor a a = a.
Proof. unfold larger. now rewrite ext_ltb_irrefl. Qed.

(** The state of the reduction after some elements have been visited:
    the current candidate [cur] sits between the elements [pre] that
    came before it, all strictly smaller, and the elements [mid] that
    came after it, none larger. *)
Lemma fold_larger_first_max (rest pre mid : list string) (cur : string) :
  Forall (below actor cur) pre ->
  Forall (not_above actor cur) mid ->
  exists r pre' post',
    fold_left (larger actor) rest cur = r
    /\ (pre ++ cur :: mid ++ rest = pre' ++ r :: post')%list
    /\ Forall (below actor r) pre'
    /\ Forall (not_above actor r) post'.
Proof.
  revert pre mid cur.
  induction rest as [|a rest IH]; intros pre mid cur Hpre Hmid.
  - exists cur, pre, mid. now rewrite app_nil_r.
  - cbn [fold_left]. unfold larger at 2.
    destruct (ext_ltb (mod_of actor cur) (mod_of actor a)) eqn:Hlt.
    + destruct (IH (pre ++ cur :: mid)%list [] a) as (r & p & q & Hr & Heq & Hp & Hq).
      * apply Forall_app. split; [|constructor].
        -- eapply Forall_impl; [exact Hpre|].
           intros x Hx. unfold below in *. eauto using ext_ltb_trans.
        -- exact Hlt.
        -- eapply Forall_impl; [exact Hmid|].
           intros x Hx. unfold below, not_above in *.
           eauto using ext_leb_ltb_trans.
      * constructor.
      * exists r, p, q. repeat split; auto.
        rewrite <- Heq. rewrite <- !app_assoc. reflexivity.
    + destruct (IH pre (mid ++ [a])%list cur) as (r & p & q & Hr & Heq & Hp & Hq).
      * exact Hpre.
      * apply Forall_app. split; [exact Hmid|]. constructor; [exact Hlt|constructor].
      * exists r, p, q. repeat split; auto.
        rewrite <- Heq. rewrite <- !app_assoc. reflexivity.
Qed.

(** Without an actor every modifier is [-Infinity] and the reduction
    never leaves its initial value. *)
Lemma fold_larger_no_actor (l : list string) (cur : string) :
  actor = None -> fold_left (larger actor) l cur = cur.
Proof.
  intros ->. revert cur. induction l as [|a l IH]; intros cur; [reflexivity|].
  cbn [fold_left]. now rewrite IH.
Qed.

End AbilityFacts.

Example ability_highest_modifier :
  ability dnd5e_defaults (sample_activity melee_weapon_attack true [])
          (sample_item (Some ["str"; "dex"; "con"]) None None JUndef false None)
          (Some (sample_actor "character" [("str", 1); ("dex", 3); ("con", 3)] []))
  = Some "dex".
Proof. vm_compute. reflexivity. Qed.

Example ability_without_actor :
  ability dnd5e_defaults (sample_activity melee_weapon_attack true [])
          (sample_item (Some ["dex"; "str"]) None None JUndef false None) None
  = Some "dex".
Proof. vm_compute. reflexivity. Qed.

(** C7, as the claim states it, fails: with an empty set of available
    abilities (a spell attack that has no actor) the getter returns [null],
    not the string ["none"]. *)
Lemma ability_empty_is_not_none :
  let act :=
    sample_activity
      (sample_attack (Some "") (Some "") None false (Some "ranged") (Some "spell"))
      true [] in
  let item := sample_item None None None JUndef false None in
  availableAbilities dnd5e_defaults act item None = []
  /\ ability dnd5e_defaults act item None = None
  /\ ability dnd5e_defaults act item None <> Some "none".
Proof. vm_compute. repeat split; congruence. Qed.

(** C7, amended. The ability getter returns [null] when the set of
    available abilities is empty, and its sole element when it has exactly
    one.  With several elements it returns an element whose actor modifier
    (a missing one counting as -Infinity) is strictly higher than that of
    every element inserted before it and at least that of every element
    inserted after it, that is the first-seen element of highest modifier;
    without an actor this is the first element of the set. *)
Theorem ability_resolution
    (defaultAbilities : DefaultAbilities)
    (act : Activity) (item : Item) (actor : option Actor) :
  match availableAbilities defaultAbilities act item actor with
  | [] => ability defaultAbilities act item actor = None
  | [only] => ability defaultAbilities act item actor = Some only
  | (first :: _ :: _) as available =>
      exists r pre post,
        ability defaultAbilities act item actor = Some r
        /\ available = (pre ++ r :: post)%list
        /\ Forall (below actor r) pre
        /\ Forall (not_above actor r) post
        /\ (actor = None -> r = first)
  end.
Proof.
  unfold ability.
  destruct (availableAbilities defaultAbilities act item actor)
    as [|first [|second rest]]; [reflexivity | reflexivity |].
  destruct (fold_larger_first_max actor (second :: rest) [] [] first)
    as (r & pre & post & Hr & Heq & Hpre & Hpost); [constructor | constructor |].
  assert (Hfold : fold_left (larger actor) (first :: second :: rest) first = r).
  { cbn [fold_left] in Hr |- *. now rewrite larger_same. }
  exists r, pre, post. repeat split; auto.
  - now rewrite Hfold.
  - intros Hnone. rewrite <- Hr. now apply fold_larger_no_actor.
Qed.

Lemma ability_resolution_witness :
  ability dnd5e_defaults (attack_activity "" "" false)
          (sample_item (Some ["dex"; "str"]) None None JUndef false None) None
  = Some "dex".
Proof.
  pose proof (ability_resolution dnd5e_defaults (attack_activity "" "" false)
                (sample_item (Some ["dex"; "str"]) None None JUndef false None)
                None) as H.
  cbn [availableAbilities sample_item item_availableAbilities] in H.
  destruct H as (r & pre & post & Hr & _ & _ & _ & Hfirst).
  rewrite (Hfirst eq_refl) in Hr. exact Hr.
Defined.

(* ===================================================================== *)
(** ** Available abilities *)
(* ===================================================================== *)

Example availableAbilities_npc_melee :
  availableAbilities dnd5e_defaults (sample_activity melee_weapon_attack true [])
    (sample_item None None None JUndef false None)
    (Some (sample_actor "npc" [] []))
  = ["str"; "dex"].
Proof. vm_compute. reflexivity. Qed.

Example availableAbilities_character_melee :
  availableAbilities dnd5e_defaults (sample_activity melee_weapon_attack true [])
    (sample_item None None None JUndef false None)
    (Some (sample_actor "character" [] []))
  = ["str"].
Proof. vm_compute. reflexivity. Qed.




(* ===================================================================== *)
(** ** Attack formula terms *)
(* ===================================================================== *)

Lemma actionType_table (act : Activity) :
  actionType act =
    match str_is (type_value (attack_type (attack act))) "ranged",
          str_is (type_classification (attack_type (attack act))) "spell" with
    | true, true => "rsak"
    | true, false => "rwak"
    | false, true => "msak"
    | false, false => "mwak"
    end.
Proof.
  unfold actionType.
  destruct (str_is (type_value _) _), (str_is (type_classification _) _);
    reflexivity.
Qed.

(** The term list of [getAttackData], one conditional push after the
    other, for any actor and any value of [attack.flat]. *)
Lemma getAttackData_parts
    (host : Host) (act : Activity) (item : Item) (actor : option Actor) :
  let computed :=
    match actor with
    | Some _ => negb (attack_flat (attack act))
    | None => false
    end in
  let proficient := from_option hasProficiency false (item_prof item) in
  let actorBonus : option ActorBonus :=
    match actor with
    | Some a =>
        actor_bonuses a ≫= fun b : gmap string ActorBonus => b !! actionType act
    | None => None
    end in
  snd (getAttackData host act item actor) =
    (term_if (computed && negb (str_is (attack_ability (attack act)) "none"))
             (JStr "@mod")
     ++ term_if (computed && proficient) (JStr "@prof")
     ++ (if computed then str_term (actorBonus ≫= bonus_attack) else [])
     ++ str_term (attack_bonus (attack act))
     ++ term_if (truthy (item_magicalBonus item) && item_magicAvailable item
                 && negb (attack_flat (attack act)))
                (item_magicalBonus item))%list.
Proof.
  cbv zeta. unfold getAttackData, term_if, str_term.
  destruct (attack_flat (attack act)), actor as [a|];
    cbn [mbind option_bind from_option negb andb];
    try destruct (str_is (attack_ability (attack act)) "none");
    try destruct (item_prof item) as [[[] ?]|];
    try destruct (actor_bonuses a) as [b|];
    cbn [mbind option_bind from_option negb andb hasProficiency term];
    try destruct (b !! actionType act) as [[[s|]]|];
    cbn [mbind option_bind bonus_attack];
    try destruct (String.eqb s "");
    destruct (attack_bonus (attack act)) as [s'|];
    try destruct (String.eqb s' "");
    destruct (truthy (item_magicalBonus item) && item_magicAvailable item);
    reflexivity.
Qed.

(** The evaluation context of [getAttackData]: the roll data, with the
    proficiency term bound to [prof] exactly when ["@prof"] is pushed. *)
Lemma getAttackData_data
    (host : Host) (act : Activity) (item : Item) (actor : option Actor) :
  let computed :=
    match actor with
    | Some _ => negb (attack_flat (attack act))
    | None => false
    end in
  let rollData := getRollData host false act item actor in
  fst (getAttackData host act item actor) =
    match item_prof item with
    | Some prof =>
        if computed && hasProficiency prof
        then <["prof" := term prof]> rollData else rollData
    | None => rollData
    end.
Proof.
  cbv zeta. unfold getAttackData.
  destruct (attack_flat (attack act)), actor as [a|]; cbn [negb andb];
    try destruct (str_is (attack_ability (attack act)) "none");
    destruct (item_prof item) as [[[] ?]|];
    cbn [hasProficiency term];
    try destruct (actor_bonuses a ≫= _ ≫= _) as [s|];
    try destruct (String.eqb s "");
    destruct (attack_bonus (attack act)) as [s'|];
    try destruct (String.eqb s' "");
    destruct (truthy (item_magicalBonus item) && item_magicAvailable item && _);
    reflexivity.
Qed.

Example getAttackData_scenario :
  snd (getAttackData plain_host (attack_activity "" "+0" false) magic_sword
                     (Some hero))
  = [JStr "@mod"; JStr "@prof"; JStr "+1"; JStr "+0"; JNum 1].
Proof. vm_compute. reflexivity. Qed.

(** C1. With [attack.flat = true] the attack data holds, for every actor
    (or none) and every item, nothing but the activity's own bonus: the
    term list is empty when [attack.bonus] is empty and is that single
    term otherwise, so no term comes from the ability modifier, the
    proficiency, the actor-wide bonus or the item's magical bonus, and the
    evaluation context is the plain roll data, with no proficiency bound
    into it. *)
Theorem getAttackData_flat
    (host : Host) (act : Activity) (item : Item) (actor : option Actor) :
  attack_flat (attack act) = true ->
  getAttackData host act item actor =
    (getRollData host false act item actor, str_term (attack_bonus (attack act)))
  /\ (forall t, t ∈ snd (getAttackData host act item actor) ->
        exists s, attack_bonus (attack act) = Some s /\ s <> "" /\ t = JStr s)
  /\ (forall s, attack_bonus (attack act) = Some s -> s <> "" ->
        snd (getAttackData host act item actor) = [JStr s]).
Proof.
  intros Hflat.
  pose proof (getAttackData_parts host act item actor) as Hparts.
  pose proof (getAttackData_data host act item actor) as Hdata.
  cbv zeta in Hparts, Hdata. rewrite Hflat in Hparts, Hdata.
  cbn [negb] in Hparts, Hdata. rewrite andb_false_r in Hparts.
  assert (Hp : snd (getAttackData host act item actor)
               = str_term (attack_bonus (attack act))).
  { rewrite Hparts. destruct actor; cbn [andb term_if app];
      now rewrite app_nil_r. }
  assert (Hd : fst (getAttackData host act item actor)
               = getRollData host false act item actor).
  { rewrite Hdata. destruct actor, (item_prof item); reflexivity. }
  split; [|split].
  - destruct (getAttackData host act item actor) as [d p].
    cbn [fst snd] in Hp, Hd. now subst.
  - intros t. rewrite Hp. unfold str_term.
    destruct (attack_bonus (attack act)) as [s|]; [|now rewrite elem_of_nil].
    destruct (String.eqb_spec s ""); [now rewrite elem_of_nil|].
    rewrite list_elem_of_singleton. intros ->. eauto.
  - intros s Hs Hne. rewrite Hp, Hs. unfold str_term.
    destruct (String.eqb_spec s ""); [contradiction | reflexivity].
Qed.

Lemma getAttackData_flat_witness :
  getAttackData plain_host (attack_activity "" "+5" true) magic_sword (Some hero)
  = (∅, [JStr "+5"]).
Proof.
  exact (proj1 (getAttackData_flat plain_host (attack_activity "" "+5" true)
                                   magic_sword (Some hero) eq_refl)).
Defined.

(** C8, as the claim states it, fails: the ["@mod"] term follows the raw
    field [attack.ability], not the resolved ability.  Here the field is
    ["none"] while the ability getter resolves to ["str"], and the term
    list has no ["@mod"]. *)
Lemma getAttackData_mod_ignores_resolved_ability :
  let act := attack_activity "none" "" false in
  let item :=
    sample_item (Some ["str"]) None
                (Some {| hasProficiency := true; term := JStr "+2" |})
                JUndef false None in
  let actor := sample_actor "character" [("str", 3)] [] in
  attack_flat (attack act) = false
  /\ ability dnd5e_defaults act item (Some actor) = Some "str"
  /\ snd (getAttackData plain_host act item (Some actor)) = [JStr "@prof"]
  /\ ~ In (JStr "@mod") (snd (getAttackData plain_host act item (Some actor))).
Proof.
  vm_compute. repeat split; try reflexivity.
  intros [H|[]]. discriminate H.
Qed.

(** C8, amended. With an actor present and [attack.flat = false] the term
    list is, in this order: ["@mod"] if and only if the activity's field
    [attack.ability] is not the string ["none"]; ["@prof"] if and only if
    the item reports proficiency, and then the item's proficiency term is
    bound to [prof] in the evaluation context; the actor-wide bonus if and
    only if the actor has a non-empty attack bonus under the activity's
    action-type code; the activity's own bonus if non-empty; the item's
    magical bonus if non-zero and available. *)
Theorem getAttackData_computed
    (host : Host) (act : Activity) (item : Item) (actor : Actor) :
  attack_flat (attack act) = false ->
  let rollData := getRollData host false act item (Some actor) in
  let proficient := from_option hasProficiency false (item_prof item) in
  let actorBonus : option ActorBonus :=
    actor_bonuses actor ≫= fun b : gmap string ActorBonus => b !! actionType act in
  let data := fst (getAttackData host act item (Some actor)) in
  let parts := snd (getAttackData host act item (Some actor)) in
  parts =
    (term_if (negb (str_is (attack_ability (attack act)) "none")) (JStr "@mod")
     ++ term_if proficient (JStr "@prof")
     ++ str_term (actorBonus ≫= bonus_attack)
     ++ str_term (attack_bonus (attack act))
     ++ term_if (truthy (item_magicalBonus item) && item_magicAvailable item)
                (item_magicalBonus item))%list
  /\ data = (if proficient
             then <["prof" := from_option term JUndef (item_prof item)]> rollData
             else rollData)
  /\ (proficient = true -> data !! "prof" = term <$> item_prof item).
Proof.
  intros Hflat. cbv zeta.
  pose proof (getAttackData_parts host act item (Some actor)) as Hparts.
  pose proof (getAttackData_data host act item (Some actor)) as Hdata.
  cbv zeta in Hparts, Hdata. rewrite Hflat in Hparts, Hdata.
  cbn [negb andb] in Hparts, Hdata. rewrite andb_true_r in Hparts.
  assert (Hd : fst (getAttackData host act item (Some actor)) =
               if from_option hasProficiency false (item_prof item)
               then <["prof" := from_option term JUndef (item_prof item)]>
                      (getRollData host false act item (Some actor))
               else getRollData host false act item (Some actor)).
  { rewrite Hdata. destruct (item_prof item) as [[[] ?]|]; reflexivity. }
  split; [exact Hparts | split; [exact Hd|]].
  intros Hprof. rewrite Hd, Hprof.
  destruct (item_prof item) as [prof|]; [|discriminate Hprof].
  cbn [from_option fmap option_fmap option_map]. apply lookup_insert_eq.
Qed.

Lemma getAttackData_computed_witness :
  snd (getAttackData plain_host (attack_activity "" "+0" false) magic_sword
                     (Some hero))
  = [JStr "@mod"; JStr "@prof"; JStr "+1"; JStr "+0"; JNum 1]
  /\ fst (getAttackData plain_host (attack_activity "" "+0" false) magic_sword
                        (Some hero)) !! "prof"
     = Some (JStr "+2").
Proof.
  pose proof (getAttackData_computed plain_host (attack_activity "" "+0" false)
                                     magic_sword hero eq_refl) as H.
  cbv zeta in H. destruct H as (Hparts & _ & Hprof).
  split.
  - rewrite Hparts. vm_compute. reflexivity.
  - rewrite (Hprof eq_refl). reflexivity.
Defined.

(* ===================================================================== *)
(** ** Derived phase *)
(* ===================================================================== *)

Lemma fill_if_empty_idempotent (target value : jsstr) :
  fill_if_empty (fill_if_empty target value) value = fill_if_empty target value.
Proof.
  unfold fill_if_empty.
  destruct (truthy_str target) eqn:Htarget.
  - now rewrite Htarget.
  - destruct (truthy_str (Some (default "" value))); reflexivity.
Qed.

(** A value that is set is kept. *)
Lemma fill_if_empty_keeps (target value : jsstr) :
  truthy_str target = true -> fill_if_empty target value = target.
Proof. unfold fill_if_empty. now intros ->. Qed.

Example prepareData_backfills :
  attack_type (attack (prepareData plain_host
    (sample_activity (sample_attack None None None false None (Some "spell")) true [])
    (sample_item None None None JUndef false None)))
  = {| type_value := Some "melee"; type_classification := Some "spell" |}.
Proof. vm_compute. reflexivity. Qed.

(** C10. Running [prepareData] a second time changes nothing.  The fields
    that the attack activity owns are the same after one and after two runs
    whatever the inherited phase does, because [attack.type.value] and
    [attack.type.classification] are only filled when empty; the whole
    state is the same provided the inherited [super.prepareData()], which
    acts on the inherited fields, is itself idempotent. *)
Theorem prepareData_idempotent (host : Host) (act : Activity) (item : Item) :
  attack (prepareData host (prepareData host act item) item)
    = attack (prepareData host act item)
  /\ damage (prepareData host (prepareData host act item) item)
    = damage (prepareData host act item)
  /\ ((forall s, super_prepareData host (super_prepareData host s)
                 = super_prepareData host s) ->
      prepareData host (prepareData host act item) item
        = prepareData host act item).
Proof.
  unfold prepareData.
  destruct (super_prepareData host (inherited act, labels act))
    as [inh lbl] eqn:Hfirst.
  cbn [inherited labels attack damage attack_type type_value
       type_classification attack_ability attack_bonus
       attack_critical_threshold attack_flat].
  destruct (super_prepareData host (inh, lbl)) as [inh' lbl'] eqn:Hsecond.
  cbn [attack damage]. rewrite !fill_if_empty_idempotent.
  split; [reflexivity | split; [reflexivity|]].
  intros Hsuper. rewrite <- Hfirst, Hsuper, Hfirst in Hsecond.
  now inversion Hsecond.
Qed.

Lemma prepareData_idempotent_witness :
  let act :=
    sample_activity (sample_attack None None None false None (Some "spell")) true [] in
  let item := sample_item None None None JUndef false None in
  prepareData plain_host (prepareData plain_host act item) item
    = prepareData plain_host act item.
Proof.
  cbv zeta.
  refine (proj2 (proj2 (prepareData_idempotent plain_host _ _)) _).
  intros s. reflexivity.
Defined.

(* ===================================================================== *)
(** ** Final phase *)
(* ===================================================================== *)

(** C2, as the claim states it, fails: the final phase unshifts the item's
    base damage onto [damage.parts].  An activity without damage parts of
    its own has one part after the pass, and a second pass over the result
    adds the base part once more. *)
Lemma prepareFinalData_changes_damage_parts :
  let act := attack_activity "" "" false in
  let once := prepareFinalData plain_host act longsword None None in
  let twice := prepareFinalData plain_host once longsword None None in
  damage_parts (damage act) = []
  /\ length (damage_parts (damage once)) = 1%nat
  /\ length (damage_parts (damage twice)) = 2%nat
  /\ damage once <> damage act
  /\ damage_parts (damage twice) <> damage_parts (damage once).
Proof.
  cbv zeta. split; [reflexivity|]. split; [vm_compute; reflexivity|].
  split; [vm_compute; reflexivity|]. split.
  - intros H. apply (f_equal (fun d => length (damage_parts d))) in H.
    vm_compute in H. discriminate H.
  - intros H. apply (f_equal (@length DamagePart)) in H.
    vm_compute in H. discriminate H.
Qed.

(** C2, amended. [prepareFinalData] never modifies [attack],
    [damage.critical.bonus] or [damage.includeBase]; besides the labels it
    writes [damage.parts], to which it prepends a clone of the item's base
    damage tagged [base = true] when [damage.includeBase] is set and the
    item has base damage with a non-empty formula; otherwise
    [damage.parts] is unchanged as well. *)
Theorem prepareFinalData_frame
    (host : Host) (act : Activity) (item : Item) (actor : option Actor)
    (rollData : option (gmap string jsval)) :
  let act' := prepareFinalData host act item actor rollData in
  let basePart :=
    match item_damage item ≫= damage_base with
    | Some base =>
        if damage_includeBase (damage act) && truthy_str (formula host base)
        then [{| dp_number := dp_number base;
                 dp_denomination := dp_denomination base;
                 dp_types := dp_types base;
                 dp_base := true;
                 dp_other := dp_other base |}]
        else []
    | None => []
    end in
  attack act' = attack act
  /\ damage_critical_bonus (damage act') = damage_critical_bonus (damage act)
  /\ damage_includeBase (damage act') = damage_includeBase (damage act)
  /\ damage_parts (damage act') = (basePart ++ damage_parts (damage act))%list.
Proof.
  cbv zeta. unfold prepareFinalData.
  destruct (item_damage item ≫= damage_base) as [base|];
    [destruct (damage_includeBase (damage act) && truthy_str (formula host base))|];
    match goal with
    | |- context [super_prepareFinalData host ?a item actor ?r] =>
        destruct (super_prepareFinalData host a item actor r) as [inh lbl]
    end;
    match goal with
    | |- context [getAttackData host ?a item actor] =>
        destruct (getAttackData host a item actor) as [data parts]
    end;
    cbn [attack damage damage_critical_bonus damage_includeBase damage_parts app];
    repeat split; reflexivity.
Qed.

(* ===================================================================== *)
(** ** Legacy migration *)
(* ===================================================================== *)

Example transformTypeData_spell_source_kept :
  let source :=
    {| source_type := "spell"; sys_ability := None; sys_attack := None;
       sys_critical := None; sys_actionType := Some "rsak";
       sys_damage_parts := Some (Some [("1d10", "fire"); ("1d4", "cold")]) |} in
  fst (transformTypeData plain_host source ∅) = source.
Proof. reflexivity. Qed.

(** C3, as the claim states it, fails: for a weapon with legacy damage
    parts the call assigns [source.system.damage.parts], which afterwards
    holds the first part only. *)
Lemma transformTypeData_mutates_source :
  sys_damage_parts (fst (transformTypeData plain_host legacy_flametongue ∅))
    = Some (Some [("1d8", "slashing")])
  /\ fst (transformTypeData plain_host legacy_flametongue ∅) <> legacy_flametongue.
Proof.
  split; [reflexivity|].
  intros H. apply (f_equal sys_damage_parts) in H. discriminate H.
Qed.

(** C3, amended. [transformTypeData] leaves every field of its source
    record unchanged except [system.damage.parts]: when the source is a
    weapon with one or more legacy damage parts, that list is replaced by
    the list of its first part alone.  The source record is therefore
    unchanged exactly when it is not a weapon or has at most one legacy
    damage part. *)
Theorem transformTypeData_source
    (host : Host) (source : Source) (activityData : gmap string jsval) :
  let source' := fst (transformTypeData host source activityData) in
  let damageParts := default [] (default None (sys_damage_parts source)) in
  source_type source' = source_type source
  /\ sys_ability source' = sys_ability source
  /\ sys_attack source' = sys_attack source
  /\ sys_critical source' = sys_critical source
  /\ sys_actionType source' = sys_actionType source
  /\ sys_damage_parts source' =
       (if String.eqb (source_type source) "weapon" then
          match damageParts with
          | base :: _ => Some (Some [base])
          | [] => sys_damage_parts source
          end
        else sys_damage_parts source)
  /\ (source' = source <->
      source_type source <> "weapon" \/ (length damageParts <= 1)%nat).
Proof.
  cbv zeta. unfold transformTypeData.
  destruct (String.eqb_spec (source_type source) "weapon") as [Hw|Hw].
  - destruct source as [ty ab at' cr acty parts]. cbn in Hw. subst ty.
    destruct parts as [[[|base rest]|]|]; cbn;
      try (repeat split; try reflexivity; intros; try (right; lia); reflexivity).
    repeat split; try reflexivity.
    + intros H. right. injection H as H. subst rest. cbn. lia.
    + intros [H|H]; [congruence|].
      destruct rest; [reflexivity | cbn in H; lia].
  - cbn [fst]. repeat split; try reflexivity. intros _. now left.
Qed.

(* ===================================================================== *)
(** ** Damage parts *)
(* ===================================================================== *)

(** The method fails exactly when the versatile swap does. *)
Lemma processDamagePart_defined
    (host : Host) (act : Activity) (item : Item) (actor : option Actor)
    (damage : DamagePart) (rollConfig : RollConfig)
    (rollData : gmap string jsval) :
  is_Some (_processDamagePart host act item actor damage rollConfig rollData)
  <-> is_Some (swapVersatile host item damage rollConfig).
Proof.
  unfold _processDamagePart.
  destruct (swapVersatile host item damage rollConfig) as [d|];
    cbn [mbind option_bind].
  - split; intros _; [eauto|].
    destruct (String.eqb (item_type item) "weapon");
      [destruct (truthy (item_magicalBonus item) && item_magicAvailable item)|];
      eauto.
  - split; intros [? H]; discriminate H.
Qed.

(** Every roll that the method returns is tagged as base damage. *)
Lemma processDamagePart_base
    (host : Host) (act : Activity) (item : Item) (actor : option Actor)
    (damage : DamagePart) (rollConfig : RollConfig)
    (rollData : gmap string jsval) (roll : Roll) :
  _processDamagePart host act item actor damage rollConfig rollData = Some roll ->
  roll_base roll = true.
Proof.
  unfold _processDamagePart.
  destruct (swapVersatile host item damage rollConfig) as [d|];
    cbn [mbind option_bind]; [|discriminate].
  destruct (String.eqb (item_type item) "weapon");
    [destruct (truthy (item_magicalBonus item) && item_magicAvailable item)|];
    intros H; injection H as <-; reflexivity.
Qed.

Lemma swapVersatile_not_versatile
    (host : Host) (item : Item) (damage : DamagePart) (rollConfig : RollConfig) :
  item_isVersatile item = false ->
  swapVersatile host item damage rollConfig = Some damage.
Proof. unfold swapVersatile. now intros ->. Qed.

(** C4. What the code does with a part that is not the base part: on an
    item that is not versatile the method returns a roll, and that roll
    carries [base = true] although the part has [base = false].  The claim
    asks for [base = false] there. *)
Theorem processDamagePart_non_base_tagged_base
    (host : Host) (act : Activity) (item : Item) (actor : option Actor)
    (damage : DamagePart) (rollConfig : RollConfig)
    (rollData : gmap string jsval) :
  dp_base damage = false ->
  item_isVersatile item = false ->
  exists roll,
    _processDamagePart host act item actor damage rollConfig rollData = Some roll
    /\ roll_base roll = true.
Proof.
  intros _ Hversatile.
  destruct (proj2 (processDamagePart_defined host act item actor damage
                     rollConfig rollData)) as [roll Hroll].
  - rewrite swapVersatile_not_versatile by exact Hversatile. eauto.
  - exists roll. split; [exact Hroll|].
    eapply processDamagePart_base. exact Hroll.
Qed.

Lemma processDamagePart_non_base_witness :
  exists roll,
    _processDamagePart plain_host (attack_activity "" "" false) longsword
                       (Some hero) fire_part oneHanded ∅ = Some roll
    /\ roll_base roll = true.
Proof.
  exact (processDamagePart_non_base_tagged_base plain_host
           (attack_activity "" "" false) longsword (Some hero) fire_part
           oneHanded ∅ eq_refl eq_refl).
Defined.

Example processDamagePart_fire_part :
  (roll_base <$> _processDamagePart plain_host (attack_activity "" "" false)
                   longsword (Some hero) fire_part oneHanded ∅,
   dp_base fire_part)
  = (Some true, false).
Proof. vm_compute. reflexivity. Qed.

(** C5, as the claim states it, fails: the types of the versatile
    definition are not filled but assigned.  The two-handed damage of this
    longsword sets its own type, bludgeoning; when the tagged base part,
    slashing, is processed two-handed, the substituted part has the type
    of the base part, and it is the substituted part that is rolled. *)
Lemma swapVersatile_overwrites_types :
  dp_base longsword_base_tagged = true
  /\ (dp_types <$> (item_damage versatile_longsword ≫= damage_versatile))
     = Some ["bludgeoning"]
  /\ (dp_types <$> swapVersatile plain_host versatile_longsword
                                  longsword_base_tagged twoHanded)
     = Some ["slashing"]
  /\ (dp_types <$> swapVersatile plain_host versatile_longsword
                                  longsword_base_tagged twoHanded)
     <> (dp_types <$> (item_damage versatile_longsword ≫= damage_versatile))
  /\ (roll_parts <$> _processDamagePart plain_host (attack_activity "" "" false)
                        versatile_longsword (Some hero) longsword_base_tagged
                        twoHanded ∅)
     = Some ["1d10"; "@mod"].
Proof. vm_compute. repeat split; congruence. Qed.

(** C5, amended. When the item is versatile and the attack mode is
    "twoHanded", the base damage part (a part tagged [base = true]) is
    replaced by a copy of the item's versatile damage tagged
    [base = true]: its number is kept when set and taken from the base
    part otherwise; its denomination is kept when set and is otherwise
    what [steppedDenomination()] returns for the base part; its types are
    always those of the base part.  The returned roll is built from what
    the inherited method returns for this copy, for a weapon as for any
    other item: its terms are the inherited terms, then ["@mod"] and
    ["@magicalBonus"] under their conditions, and it is tagged
    [base = true]. *)
Theorem swapVersatile_twoHanded
    (host : Host) (act : Activity) (item : Item) (actor : option Actor)
    (damage versatile : DamagePart) (rollConfig : RollConfig)
    (rollData : gmap string jsval) :
  dp_base damage = true ->
  item_isVersatile item = true ->
  mode rollConfig = Some "twoHanded" ->
  item_damage item ≫= damage_versatile = Some versatile ->
  let swapped :=
    {| dp_number :=
         if truthy (dp_number versatile) then dp_number versatile
         else dp_number damage;
       dp_denomination :=
         if truthy (dp_denomination versatile) then dp_denomination versatile
         else steppedDenomination host damage;
       dp_types := dp_types damage;
       dp_base := true;
       dp_other := dp_other versatile |} in
  let roll := super_processDamagePart host swapped rollConfig rollData in
  let weapon := String.eqb (item_type item) "weapon" in
  let magic := truthy (item_magicalBonus item) && item_magicAvailable item in
  let dice :=
    match actor with
    | Some a =>
        match actor_meleeCriticalDamageDice a with
        | JUndef => JNum 0
        | v => v
        end
    | None => JNum 0
    end in
  swapVersatile host item damage rollConfig = Some swapped
  /\ _processDamagePart host act item actor damage rollConfig rollData =
       Some {| roll_data :=
                 if weapon && magic
                 then <["magicalBonus" := item_magicalBonus item]> (roll_data roll)
                 else roll_data roll;
               roll_parts :=
                 (roll_parts roll
                  ++ (if weapon
                         && negb (existsb (fun p => includes p "@mod")
                                          (roll_parts roll))
                      then ["@mod"] else [])
                  ++ (if weapon && magic then ["@magicalBonus"] else []))%list;
               roll_options :=
                 if String.eqb (actionType act) "mwak"
                    && negb (bool_decide (js_parseInt host dice = Some 0))
                 then <["critical.bonusDice" := dice]> (roll_options roll)
                 else roll_options roll;
               roll_base := true |}.
Proof.
  intros _ Hversatile Hmode Hdef. cbv zeta.
  assert (Hswap : swapVersatile host item damage rollConfig =
    Some {| dp_number :=
              if truthy (dp_number versatile) then dp_number versatile
              else dp_number damage;
            dp_denomination :=
              if truthy (dp_denomination versatile) then dp_denomination versatile
              else steppedDenomination host damage;
            dp_types := dp_types damage;
            dp_base := true;
            dp_other := dp_other versatile |}).
  { unfold swapVersatile. rewrite Hversatile, Hmode, Hdef. reflexivity. }
  split; [exact Hswap|].
  unfold _processDamagePart. rewrite Hswap, Hmode.
  cbn [mbind option_bind str_is String.eqb Ascii.eqb Bool.eqb negb orb].
  destruct (String.eqb (item_type item) "weapon"); cbn [andb];
    [|now rewrite !app_nil_r].
  match goal with
  | |- context [existsb ?f ?l] => destruct (existsb f l)
  end;
    destruct (truthy (item_magicalBonus item) && item_magicAvailable item);
    cbn [negb]; rewrite <- ?app_assoc, ?app_nil_r; reflexivity.
Qed.

Lemma swapVersatile_twoHanded_witness :
  swapVersatile plain_host versatile_longsword longsword_base_tagged twoHanded
    = Some {| dp_number := JNum 1; dp_denomination := JStr "d10";
              dp_types := ["slashing"]; dp_base := true;
              dp_other := {["formula" := JStr "1d10"]} |}
  /\ _processDamagePart plain_host (attack_activity "" "" false)
                        versatile_longsword (Some hero) longsword_base_tagged
                        twoHanded ∅
     = Some {| roll_data := ∅; roll_parts := ["1d10"; "@mod"];
               roll_options := ∅; roll_base := true |}.
Proof.
  exact (swapVersatile_twoHanded plain_host (attack_activity "" "" false)
           versatile_longsword (Some hero) longsword_base_tagged
           (sample_part JUndef (JStr "d10") ["bludgeoning"] false "1d10")
           twoHanded ∅ eq_refl eq_refl eq_refl eq_refl).
Defined.

(* ===================================================================== *)
(** ** Sets built by [new Set] *)
(* ===================================================================== *)

Lemma set_add_all_elem (xs seen : list string) (x : string) :
  x ∈ set_add_all seen xs <-> x ∈ seen \/ x ∈ xs.
Proof.
  revert seen. induction xs as [|y xs IH]; intros seen; cbn [set_add_all].
  - rewrite elem_of_nil. tauto.
  - case_bool_decide as Hy; rewrite IH, ?elem_of_app, !elem_of_cons,
      ?elem_of_nil.
    + split; [tauto|]. intros [H|[->|H]]; tauto.
    + tauto.
Qed.

Lemma set_add_all_NoDup (xs seen : list string) :
  NoDup seen -> NoDup (set_add_all seen xs).
Proof.
  revert seen. induction xs as [|y xs IH]; intros seen Hseen; cbn [set_add_all].
  - exact Hseen.
  - case_bool_decide as Hy; apply IH; [exact Hseen|].
    apply NoDup_app. split; [exact Hseen|]. split.
    + intros x Hx. rewrite list_elem_of_singleton. intros ->. contradiction.
    + apply NoDup_singleton.
Qed.

Lemma set_add_all_distinct (xs seen : list string) :
  NoDup (seen ++ xs) -> set_add_all seen xs = (seen ++ xs)%list.
Proof.
  revert seen. induction xs as [|y xs IH]; intros seen Hnd; cbn [set_add_all].
  - now rewrite app_nil_r.
  - apply NoDup_app in Hnd as (Hseen & Hdisj & Hxs).
    rewrite bool_decide_eq_false_2.
    + rewrite IH; [now rewrite <- app_assoc|].
      rewrite <- app_assoc. apply NoDup_app. auto.
    + intros Hy. apply (Hdisj y Hy). apply list_elem_of_here.
Qed.

(* ===================================================================== *)
(** ** More on the abilities of an attack *)
(* ===================================================================== *)

Lemma fold_larger_in (actor : option Actor) (l : list string) (cur : string) :
  fold_left (larger actor) l cur ∈ cur :: l.
Proof.
  revert cur. induction l as [|a l IH]; intros cur; cbn [fold_left].
  - apply list_elem_of_here.
  - specialize (IH (larger actor cur a)).
    assert (Hl : larger actor cur a = a \/ larger actor cur a = cur).
    { unfold larger. destruct (ext_ltb _ _); auto. }
    destruct Hl as [Hl|Hl]; rewrite Hl in IH |- *.
    + apply list_elem_of_further. exact IH.
    + apply elem_of_cons in IH as [->|IH]; [apply list_elem_of_here|].
      now do 2 apply list_elem_of_further.
Qed.

(** X1. For a spell attack whose item declares no abilities and whose
    actor has no designated spellcasting ability, the available abilities
    are the spellcasting abilities of the actor's classes, each of them
    once: the set has no duplicates, it has the same members as the class
    list, and it is the class list itself when that has no repetition. *)
Theorem availableAbilities_spell_classes
    (defaultAbilities : DefaultAbilities)
    (act : Activity) (item : Item) (actor : Actor) :
  item_availableAbilities item = None ->
  str_is (type_classification (attack_type (attack act))) "spell" = true ->
  truthy_str (actor_spellcasting actor) = false ->
  let result := availableAbilities defaultAbilities act item (Some actor) in
  NoDup result
  /\ (forall a, a ∈ result <-> a ∈ actor_spellcastingClasses actor)
  /\ (NoDup (actor_spellcastingClasses actor) ->
      result = actor_spellcastingClasses actor).
Proof.
  intros Hitem Hspell Hnone. cbv zeta.
  unfold availableAbilities. rewrite Hitem, Hspell.
  assert (Hlist :
    match actor_spellcasting actor with
    | Some s => if String.eqb s "" then actor_spellcastingClasses actor else [s]
    | None => actor_spellcastingClasses actor
    end = actor_spellcastingClasses actor).
  { destruct (actor_spellcasting actor) as [s|]; [|reflexivity].
    cbn in Hnone. destruct (String.eqb s ""); [reflexivity | discriminate Hnone]. }
  rewrite Hlist. unfold new_Set. split; [|split].
  - apply set_add_all_NoDup. constructor.
  - intros a. rewrite set_add_all_elem, elem_of_nil. tauto.
  - intros Hnd. now apply set_add_all_distinct.
Qed.

Lemma availableAbilities_spell_classes_witness :
  availableAbilities dnd5e_defaults spell_attack plain_item
                     (Some multiclass_caster) = ["int"; "wis"]
  /\ NoDup (availableAbilities dnd5e_defaults spell_attack plain_item
                               (Some multiclass_caster)).
Proof.
  split; [reflexivity|].
  exact (proj1 (availableAbilities_spell_classes dnd5e_defaults spell_attack
                  plain_item multiclass_caster eq_refl eq_refl eq_refl)).
Defined.

(** X2. For a spell attack whose item declares no abilities, a designated
    spellcasting ability of the actor is the only available ability and is
    the resolved ability, whatever the actor's classes and modifiers are. *)
Theorem ability_spell_designated
    (defaultAbilities : DefaultAbilities)
    (act : Activity) (item : Item) (actor : Actor) (s : string) :
  item_availableAbilities item = None ->
  str_is (type_classification (attack_type (attack act))) "spell" = true ->
  actor_spellcasting actor = Some s ->
  s <> "" ->
  availableAbilities defaultAbilities act item (Some actor) = [s]
  /\ ability defaultAbilities act item (Some actor) = Some s.
Proof.
  intros Hitem Hspell Hs Hne.
  assert (Havail : availableAbilities defaultAbilities act item (Some actor) = [s]).
  { unfold availableAbilities. rewrite Hitem, Hspell, Hs.
    destruct (String.eqb_spec s ""); [contradiction | reflexivity]. }
  split; [exact Havail|]. unfold ability. now rewrite Havail.
Qed.

Lemma ability_spell_designated_witness :
  availableAbilities dnd5e_defaults spell_attack plain_item (Some innate_caster)
    = ["cha"]
  /\ ability dnd5e_defaults spell_attack plain_item (Some innate_caster)
    = Some "cha".
Proof.
  refine (ability_spell_designated dnd5e_defaults spell_attack plain_item
            innate_caster "cha" eq_refl eq_refl eq_refl _).
  discriminate.
Defined.

(** X3. The resolved ability is always drawn from the available ones: the
    getter returns [null] only for an empty set, and any other result is a
    member of the set. *)
Theorem ability_from_available
    (defaultAbilities : DefaultAbilities)
    (act : Activity) (item : Item) (actor : option Actor) :
  match ability defaultAbilities act item actor with
  | None => availableAbilities defaultAbilities act item actor = []
  | Some r => r ∈ availableAbilities defaultAbilities act item actor
  end.
Proof.
  unfold ability.
  destruct (availableAbilities defaultAbilities act item actor)
    as [|first [|second rest]].
  - reflexivity.
  - apply list_elem_of_here.
  - pose proof (fold_larger_in actor (first :: second :: rest) first) as H.
    rewrite elem_of_cons in H. destruct H as [->|H]; [apply list_elem_of_here|exact H].
Qed.

(** X4. A weapon or unarmed attack of anything but an NPC (a character, or
    no actor at all), on an item that declares no abilities, has a single
    available ability, which is therefore the resolved one: the default
    melee ability when [attack.type.value] is "melee", and the default
    ranged ability for every other value, an unset one included. *)
Theorem ability_weapon_not_npc
    (defaultAbilities : DefaultAbilities)
    (act : Activity) (item : Item) (actor : option Actor) :
  item_availableAbilities item = None ->
  str_is (type_classification (attack_type (attack act))) "spell" = false ->
  (forall a, actor = Some a -> actor_type a <> "npc") ->
  let chosen :=
    if str_is (type_value (attack_type (attack act))) "melee"
    then meleeAttack defaultAbilities else rangedAttack defaultAbilities in
  availableAbilities defaultAbilities act item actor = [chosen]
  /\ ability defaultAbilities act item actor = Some chosen.
Proof.
  intros Hitem Hspell Hnpc. cbv zeta.
  assert (Havail : availableAbilities defaultAbilities act item actor =
    [if str_is (type_value (attack_type (attack act))) "melee"
     then meleeAttack defaultAbilities else rangedAttack defaultAbilities]).
  { unfold availableAbilities. rewrite Hitem, Hspell.
    assert (Hn : from_option (fun a => String.eqb (actor_type a) "npc") false actor
                 = false).
    { destruct actor as [a|]; [|reflexivity]. cbn [from_option].
      destruct (String.eqb_spec (actor_type a) "npc") as [Heq|]; [|reflexivity].
      now destruct (Hnpc a eq_refl). }
    rewrite Hn. reflexivity. }
  split; [exact Havail|]. unfold ability. now rewrite Havail.
Qed.

Lemma ability_weapon_not_npc_witness :
  availableAbilities dnd5e_defaults
    (sample_activity (sample_attack None None None false None (Some "weapon")) true [])
    plain_item (Some hero) = ["dex"]
  /\ ability dnd5e_defaults
       (sample_activity (sample_attack None None None false None (Some "weapon")) true [])
       plain_item (Some hero) = Some "dex".
Proof.
  refine (ability_weapon_not_npc dnd5e_defaults
            (sample_activity
               (sample_attack None None None false None (Some "weapon")) true [])
            plain_item (Some hero) eq_refl eq_refl _).
  intros a Ha. injection Ha as <-. discriminate.
Defined.

(** X5. Of the activity, the two ability getters read nothing but
    [attack.type]: two activities with the same attack type have the same
    available abilities and the same resolved ability, so the stored
    [attack.ability] (like the bonus, the flat switch and the damage) has
    no influence on either. *)
Theorem ability_reads_only_attack_type
    (defaultAbilities : DefaultAbilities)
    (act act' : Activity) (item : Item) (actor : option Actor) :
  attack_type (attack act) = attack_type (attack act') ->
  availableAbilities defaultAbilities act item actor
    = availableAbilities defaultAbilities act' item actor
  /\ ability defaultAbilities act item actor
    = ability defaultAbilities act' item actor.
Proof.
  intros Htype.
  assert (Havail : availableAbilities defaultAbilities act item actor
                   = availableAbilities defaultAbilities act' item actor).
  { unfold availableAbilities. now rewrite Htype. }
  split; [exact Havail|]. unfold ability. now rewrite Havail.
Qed.

Lemma ability_reads_only_attack_type_witness :
  ability dnd5e_defaults (attack_activity "none" "+5" true) plain_item (Some hero)
  = ability dnd5e_defaults (attack_activity "dex" "" false) plain_item (Some hero).
Proof.
  exact (proj2 (ability_reads_only_attack_type dnd5e_defaults
                  (attack_activity "none" "+5" true)
                  (attack_activity "dex" "" false) plain_item (Some hero)
                  eq_refl)).
Defined.

(* ===================================================================== *)
(** ** Action type and the derived phase *)
(* ===================================================================== *)

Lemma actionType_actionCode (act : Activity) :
  actionType act = actionCode (type_value (attack_type (attack act)))
                              (type_classification (attack_type (attack act))).
Proof. reflexivity. Qed.

Lemma str_is_fill_if_empty (target value : jsstr) (lit : string) :
  lit <> "" ->
  str_is (fill_if_empty target value) lit
  = str_is (if truthy_str target then target else value) lit.
Proof.
  intros Hlit. unfold fill_if_empty.
  destruct (truthy_str target); [reflexivity|].
  destruct value as [v|]; [reflexivity|]. cbn.
  destruct lit; [contradiction | reflexivity].
Qed.

(** X6. After the derived phase the action-type code is the one of the
    effective attack type: each of value and classification is the
    activity's own when that is set, and the item's otherwise.  So a value
    set on the activity decides between "m" and "r" whatever the item
    says, and the item decides only where the activity is silent. *)
Theorem actionType_after_prepareData
    (host : Host) (act : Activity) (item : Item) :
  let t := attack_type (attack act) in
  actionType (prepareData host act item) =
    actionCode
      (if truthy_str (type_value t) then type_value t else item_attackType item)
      (if truthy_str (type_classification t) then type_classification t
       else item_attackClassification item).
Proof.
  cbv zeta. unfold prepareData.
  destruct (super_prepareData host (inherited act, labels act)) as [inh lbl].
  unfold actionType, actionCode.
  cbn [attack attack_type type_value type_classification].
  rewrite !str_is_fill_if_empty by discriminate. reflexivity.
Qed.

Example actionType_item_fills :
  actionType (prepareData plain_host
    (sample_activity (sample_attack None None None false None None) true [])
    {| item_type := "spell"; item_availableAbilities := None;
       item_criticalThreshold := None; item_attackType := Some "ranged";
       item_attackClassification := Some "spell"; item_prof := None;
       item_magicalBonus := JUndef; item_magicAvailable := false;
       item_isVersatile := false; item_damage := None |})
  = "rsak".
Proof. reflexivity. Qed.

(** X7. The derived phase never overwrites an attack type that is set: when
    both [attack.type.value] and [attack.type.classification] are
    non-empty, [prepareData] leaves the whole [attack] object as it was,
    and with it the action-type code. *)
Theorem prepareData_keeps_attack
    (host : Host) (act : Activity) (item : Item) :
  truthy_str (type_value (attack_type (attack act))) = true ->
  truthy_str (type_classification (attack_type (attack act))) = true ->
  attack (prepareData host act item) = attack act
  /\ actionType (prepareData host act item) = actionType act.
Proof.
  intros Hvalue Hclass.
  assert (Hattack : attack (prepareData host act item) = attack act).
  { unfold prepareData.
    destruct (super_prepareData host (inherited act, labels act)) as [inh lbl].
    cbn [attack]. rewrite !fill_if_empty_keeps by assumption.
    destruct (attack act) as [? ? ? ? []]. reflexivity. }
  split; [exact Hattack|]. unfold actionType. now rewrite Hattack.
Qed.

Lemma prepareData_keeps_attack_witness :
  attack (prepareData plain_host spell_attack magic_sword) = attack spell_attack
  /\ actionType (prepareData plain_host spell_attack magic_sword) = "rsak".
Proof.
  exact (prepareData_keeps_attack plain_host spell_attack magic_sword
                                  eq_refl eq_refl).
Defined.

(* ===================================================================== *)
(** ** More on the legacy migration *)
(* ===================================================================== *)

(** What [transformTypeData] hands to [mergeObject] when the legacy action
    type is there. *)
Lemma transformTypeData_result
    (host : Host) (source : Source) (activityData : gmap string jsval)
    (code : string) :
  sys_actionType source = Some code ->
  let source' := fst (transformTypeData host source activityData) in
  let damageParts := default [] (default None (sys_damage_parts source)) in
  snd (transformTypeData host source activityData) =
    Some (mergeObject host activityData
      {| attack_ability := Some (default "" (sys_ability source));
         attack_bonus := Some (default "" (sys_attack source ≫= legacy_bonus));
         attack_critical_threshold := sys_critical source ≫= legacy_threshold;
         attack_flat := default false (sys_attack source ≫= legacy_flat);
         attack_type :=
           {| type_value := Some (if startsWith code "m" then "melee" else "ranged");
              type_classification :=
                Some (if endsWith code "wak" then "weapon" else "spell") |} |}
      {| damage_critical_bonus := sys_critical source ≫= legacy_damage;
         damage_includeBase := true;
         damage_parts :=
           map (transformDamagePartData host source')
               (if String.eqb (source_type source) "weapon"
                then tail damageParts else damageParts) |}).
Proof.
  intros Hcode. cbv zeta. unfold transformTypeData.
  destruct (String.eqb (source_type source) "weapon");
    [destruct (default [] (default None (sys_damage_parts source))) as [|b rest]|];
    cbn [fst snd sys_actionType sys_ability sys_attack sys_critical tail];
    rewrite Hcode; reflexivity.
Qed.

(** X8. The migration inverts the action-type code: for each of the four
    legacy codes "mwak", "rwak", "msak" and "rsak" a result is returned,
    and whatever activity carries the migrated [attack] object has that
    same code as its [actionType]. *)
Theorem transformTypeData_actionType_roundtrip
    (host : Host) (source : Source) (activityData : gmap string jsval)
    (code : string) :
  sys_actionType source = Some code ->
  code ∈ ["mwak"; "rwak"; "msak"; "rsak"] ->
  exists a d,
    snd (transformTypeData host source activityData)
      = Some (mergeObject host activityData a d)
    /\ forall act, attack act = a -> actionType act = code.
Proof.
  intros Hcode Hin.
  pose proof (transformTypeData_result host source activityData code Hcode) as H.
  cbv zeta in H. eexists _, _. split; [exact H|].
  intros act Hact. unfold actionType. rewrite Hact.
  cbn [attack_type type_value type_classification].
  rewrite !elem_of_cons, elem_of_nil in Hin.
  destruct Hin as [->|[->|[->|[->|[]]]]]; reflexivity.
Qed.

Lemma transformTypeData_actionType_roundtrip_witness :
  exists a d,
    snd (transformTypeData plain_host legacy_flametongue ∅)
      = Some (mergeObject plain_host ∅ a d)
    /\ forall act, attack act = a -> actionType act = "mwak".
Proof.
  refine (transformTypeData_actionType_roundtrip plain_host legacy_flametongue
            ∅ "mwak" eq_refl _).
  apply list_elem_of_here.
Defined.

(** X9. The migration returns nothing exactly when the legacy record has no
    [system.actionType] (reading it throws); a weapon's legacy damage parts
    have been cut down to the first one by then, so the failed call still
    leaves the source rewritten. *)
Theorem transformTypeData_failure
    (host : Host) (source : Source) (activityData : gmap string jsval) :
  (snd (transformTypeData host source activityData) = None
   <-> sys_actionType source = None)
  /\ sys_actionType (fst (transformTypeData host source activityData))
     = sys_actionType source
  /\ forall base rest,
       source_type source = "weapon" ->
       sys_damage_parts source = Some (Some (base :: rest)) ->
       sys_damage_parts (fst (transformTypeData host source activityData))
         = Some (Some [base]).
Proof.
  split; [|split].
  - destruct (sys_actionType source) as [code|] eqn:Hcode.
    + pose proof (transformTypeData_result host source activityData code Hcode) as H.
      cbv zeta in H. rewrite H. split; discriminate.
    + split; [reflexivity|]. intros _. unfold transformTypeData.
      destruct (String.eqb (source_type source) "weapon");
        [destruct (default [] (default None (sys_damage_parts source)))|];
        cbn [snd sys_actionType]; now rewrite Hcode.
  - unfold transformTypeData.
    destruct (String.eqb (source_type source) "weapon");
      [destruct (default [] (default None (sys_damage_parts source)))|];
      reflexivity.
  - intros base rest Hweapon Hparts. unfold transformTypeData.
    rewrite Hweapon, Hparts. reflexivity.
Qed.

Lemma transformTypeData_failure_witness :
  let broken :=
    {| source_type := "weapon"; sys_ability := None; sys_attack := None;
       sys_critical := None; sys_actionType := None;
       sys_damage_parts := Some (Some [("1d8", "slashing"); ("2d6", "fire")]) |} in
  snd (transformTypeData plain_host broken ∅) = None
  /\ sys_damage_parts (fst (transformTypeData plain_host broken ∅))
     = Some (Some [("1d8", "slashing")]).
Proof.
  cbv zeta.
  pose proof (transformTypeData_failure plain_host
    {| source_type := "weapon"; sys_ability := None; sys_attack := None;
       sys_critical := None; sys_actionType := None;
       sys_damage_parts := Some (Some [("1d8", "slashing"); ("2d6", "fire")]) |}
    ∅) as (Hnone & _ & Hparts).
  split.
  - apply Hnone. reflexivity.
  - exact (Hparts _ _ eq_refl eq_refl).
Defined.

(** X10. No legacy damage part is lost or duplicated by the migration: the
    parts handed to the activity, in their order, are all the legacy parts
    for a source that is not a weapon, and all but the first for a weapon,
    whose first part is the one left in the source; each is converted by
    [transformDamagePartData] against the source as the call leaves it,
    and [damage.includeBase] is always true. *)
Theorem transformTypeData_parts_conserved
    (host : Host) (source : Source) (activityData : gmap string jsval)
    (code : string) :
  sys_actionType source = Some code ->
  let source' := fst (transformTypeData host source activityData) in
  let legacy := default [] (default None (sys_damage_parts source)) in
  let kept :=
    if String.eqb (source_type source) "weapon" then firstn 1 legacy else [] in
  exists a d given,
    snd (transformTypeData host source activityData)
      = Some (mergeObject host activityData a d)
    /\ legacy = (kept ++ given)%list
    /\ damage_parts d = map (transformDamagePartData host source') given
    /\ length (damage_parts d) = (length legacy - length kept)%nat
    /\ damage_includeBase d = true.
Proof.
  intros Hcode. cbv zeta.
  pose proof (transformTypeData_result host source activityData code Hcode) as H.
  cbv zeta in H.
  eexists _, _,
    (if String.eqb (source_type source) "weapon"
     then tail (default [] (default None (sys_damage_parts source)))
     else default [] (default None (sys_damage_parts source))).
  split; [exact H|].
  cbn [damage_parts damage_includeBase]. rewrite length_map.
  destruct (String.eqb (source_type source) "weapon");
    [destruct (default [] (default None (sys_damage_parts source))) as [|b rest]|];
    simpl; repeat split; lia.
Qed.

Lemma transformTypeData_parts_conserved_witness :
  exists a d,
    snd (transformTypeData plain_host legacy_flametongue ∅)
      = Some (mergeObject plain_host ∅ a d)
    /\ length (damage_parts d) = 1%nat.
Proof.
  destruct (transformTypeData_parts_conserved plain_host legacy_flametongue ∅
              "mwak" eq_refl) as (a & d & given & Hres & _ & _ & Hlen & _).
  exists a, d. split; [exact Hres | exact Hlen].
Defined.

(* ===================================================================== *)
(** ** More on the attack data *)
(* ===================================================================== *)

(** X11. Without an actor the attack data has none of the computed terms:
    the evaluation context is the roll data as it is, and the terms are
    the activity's own bonus, if non-empty, followed by the item's magical
    bonus, if it is non-zero and available and the attack is not flat. *)
Theorem getAttackData_without_actor
    (host : Host) (act : Activity) (item : Item) :
  getAttackData host act item None =
    (getRollData host false act item None,
     (str_term (attack_bonus (attack act))
      ++ term_if (truthy (item_magicalBonus item) && item_magicAvailable item
                  && negb (attack_flat (attack act)))
                 (item_magicalBonus item))%list).
Proof.
  pose proof (getAttackData_parts host act item None) as Hparts.
  pose proof (getAttackData_data host act item None) as Hdata.
  cbv zeta in Hparts, Hdata. cbn [andb term_if app] in Hparts.
  destruct (getAttackData host act item None) as [data parts].
  cbn [fst snd] in Hparts, Hdata. subst parts.
  f_equal. rewrite Hdata. destruct (item_prof item); reflexivity.
Qed.

(** X12. The only entry of the roll data that [getAttackData] ever writes
    is [prof]: every other key of the evaluation context has the value it
    has in the roll data, for any actor and any activity. *)
Theorem getAttackData_data_frame
    (host : Host) (act : Activity) (item : Item) (actor : option Actor)
    (key : string) :
  key <> "prof" ->
  fst (getAttackData host act item actor) !! key
  = getRollData host false act item actor !! key.
Proof.
  intros Hkey.
  pose proof (getAttackData_data host act item actor) as Hdata.
  cbv zeta in Hdata. rewrite Hdata.
  destruct (item_prof item) as [prof|]; [|reflexivity].
  destruct (_ && hasProficiency prof); [|reflexivity].
  now rewrite lookup_insert_ne by congruence.
Qed.

Lemma getAttackData_data_frame_witness :
  fst (getAttackData plain_host (attack_activity "" "+0" false) magic_sword
                     (Some hero)) !! "mod"
  = None.
Proof.
  refine (getAttackData_data_frame plain_host (attack_activity "" "+0" false)
            magic_sword (Some hero) "mod" _).
  discriminate.
Defined.

(* ===================================================================== *)
(** ** More on the final phase *)
(* ===================================================================== *)

Lemma toHit_label_signed (f : string) :
  startsWith (toHit_label f) "+" || startsWith (toHit_label f) "-" = true.
Proof.
  unfold toHit_label.
  destruct (startsWith f "+" || startsWith f "-") eqn:Hsign; [exact Hsign|].
  reflexivity.
Qed.

Lemma or_zero_nonempty (s : string) : or_zero s <> "".
Proof.
  unfold or_zero. destruct (String.eqb_spec s ""); [discriminate | assumption].
Qed.

(** X13. The to-hit label never gets a second sign: a formula that starts
    with "+" or "-" is its own label, any other formula is prefixed with
    "+ ", and labelling a label changes nothing. *)
Theorem toHit_label_idempotent (f : string) :
  toHit_label (toHit_label f) = toHit_label f
  /\ toHit_label f =
       (if startsWith f "+" || startsWith f "-" then f else "+ " ++ f)
  /\ startsWith (toHit_label f) "+" || startsWith (toHit_label f) "-" = true.
Proof.
  split; [|split; [reflexivity | apply toHit_label_signed]].
  unfold toHit_label at 1. now rewrite toHit_label_signed.
Qed.

Lemma basePart_includeBase (host : Host) (act act' : Activity) (item : Item) :
  damage_includeBase (damage act) = damage_includeBase (damage act') ->
  basePart host act item = basePart host act' item.
Proof. unfold basePart. now intros ->. Qed.

(** The activity that [prepareFinalData] returns, field by field. *)
Lemma prepareFinalData_shape
    (host : Host) (act : Activity) (item : Item) (actor : option Actor)
    (rollData : option (gmap string jsval)) :
  exists inh lbl modifier formula,
    prepareFinalData host act item actor rollData =
      {| inherited := inh;
         attack := attack act;
         damage :=
           {| damage_critical_bonus := damage_critical_bonus (damage act);
              damage_includeBase := damage_includeBase (damage act);
              damage_parts :=
                (basePart host act item ++ damage_parts (damage act))%list |};
         labels :=
           <["toHit" := JStr (toHit_label (or_zero formula))]>
             (<["modifier" := JStr (or_zero modifier)]> lbl) |}.
Proof.
  unfold prepareFinalData, basePart.
  destruct (item_damage item ≫= damage_base) as [base|];
    [destruct (damage_includeBase (damage act) && truthy_str (formula host base))|];
    match goal with
    | |- context [super_prepareFinalData host ?a item actor ?r] =>
        destruct (super_prepareFinalData host a item actor r) as [inh lbl]
    end;
    match goal with
    | |- context [getAttackData host ?a item actor] =>
        destruct (getAttackData host a item actor) as [data parts]
    end;
    cbn [attack damage app]; try destruct (damage act);
    eexists _, _, _, _; reflexivity.
Qed.

(** X14. After the final phase both attack labels are there and well
    formed: [labels.toHit] is a string that starts with "+" or "-", and
    [labels.modifier] is a string that is never empty. *)
Theorem prepareFinalData_labels
    (host : Host) (act : Activity) (item : Item) (actor : option Actor)
    (rollData : option (gmap string jsval)) :
  exists toHit modifier,
    labels (prepareFinalData host act item actor rollData) !! "toHit"
      = Some (JStr toHit)
    /\ startsWith toHit "+" || startsWith toHit "-" = true
    /\ labels (prepareFinalData host act item actor rollData) !! "modifier"
      = Some (JStr modifier)
    /\ modifier <> "".
Proof.
  destruct (prepareFinalData_shape host act item actor rollData)
    as (inh & lbl & m & f & ->).
  cbn [labels]. eexists _, _. split; [apply lookup_insert_eq|].
  split; [apply toHit_label_signed|]. split.
  - rewrite lookup_insert_ne by discriminate. apply lookup_insert_eq.
  - apply or_zero_nonempty.
Qed.

(** X15. The base damage accumulates: [n] final passes in a row on the same
    activity put [n] copies of the item's base part in front of the
    original damage parts, and leave [attack] untouched.  Preparing twice
    without resetting the activity doubles the base damage. *)
Theorem finalPasses_damage_parts
    (host : Host) (n : nat) (act : Activity) (item : Item)
    (actor : option Actor) :
  damage_parts (damage (finalPasses host n act item actor))
    = (concat (replicate n (basePart host act item))
       ++ damage_parts (damage act))%list
  /\ damage_includeBase (damage (finalPasses host n act item actor))
    = damage_includeBase (damage act)
  /\ attack (finalPasses host n act item actor) = attack act.
Proof.
  induction n as [|n (IHparts & IHinclude & IHattack)]; [now cbn|].
  cbn [finalPasses].
  destruct (prepareFinalData_shape host (finalPasses host n act item actor)
              item actor None) as (inh & lbl & m & f & ->).
  cbn [damage attack damage_parts damage_includeBase].
  rewrite IHparts, IHinclude, IHattack.
  rewrite (basePart_includeBase host _ act item IHinclude).
  cbn [replicate concat]. now rewrite <- app_assoc.
Qed.

Example finalPasses_three :
  length (damage_parts (damage
    (finalPasses plain_host 3 (attack_activity "" "" false) longsword None)))
  = 3%nat.
Proof. vm_compute. reflexivity. Qed.

(** X16. The final phase does not change what the getters return: the
    action type, the critical threshold, the available abilities and the
    resolved ability of the prepared activity are those of the activity
    before the pass. *)
Theorem prepareFinalData_getters
    (host : Host) (defaultAbilities : DefaultAbilities)
    (act : Activity) (item : Item) (actor : option Actor)
    (rollData : option (gmap string jsval)) :
  let act' := prepareFinalData host act item actor rollData in
  actionType act' = actionType act
  /\ criticalThreshold act' item = criticalThreshold act item
  /\ availableAbilities defaultAbilities act' item actor
     = availableAbilities defaultAbilities act item actor
  /\ ability defaultAbilities act' item actor
     = ability defaultAbilities act item actor.
Proof.
  cbv zeta.
  destruct (prepareFinalData_shape host act item actor rollData)
    as (inh & lbl & m & f & ->).
  repeat split; reflexivity.
Qed.

(* ===================================================================== *)
(** ** More on damage parts *)
(* ===================================================================== *)

(** The roll that [_processDamagePart] returns for the part that the
    versatile swap hands on, field by field. *)
Lemma processDamagePart_shape
    (host : Host) (act : Activity) (item : Item) (actor : option Actor)
    (damage swapped : DamagePart) (rollConfig : RollConfig)
    (rollData : gmap string jsval) :
  swapVersatile host item damage rollConfig = Some swapped ->
  let roll := super_processDamagePart host swapped rollConfig rollData in
  let weapon := String.eqb (item_type item) "weapon" in
  let magic := truthy (item_magicalBonus item) && item_magicAvailable item in
  let includeMod :=
    negb (str_is (mode rollConfig) "offHand")
    || js_negative host (roll_data roll !! "mod") in
  let dice :=
    match actor with
    | Some a =>
        match actor_meleeCriticalDamageDice a with
        | JUndef => JNum 0
        | v => v
        end
    | None => JNum 0
    end in
  _processDamagePart host act item actor damage rollConfig rollData =
    Some {| roll_data :=
              if weapon && magic
              then <["magicalBonus" := item_magicalBonus item]> (roll_data roll)
              else roll_data roll;
            roll_parts :=
              (roll_parts roll
               ++ (if weapon && includeMod
                      && negb (existsb (fun p => includes p "@mod") (roll_parts roll))
                   then ["@mod"] else [])
               ++ (if weapon && magic then ["@magicalBonus"] else []))%list;
            roll_options :=
              if String.eqb (actionType act) "mwak"
                 && negb (bool_decide (js_parseInt host dice = Some 0))
              then <["critical.bonusDice" := dice]> (roll_options roll)
              else roll_options roll;
            roll_base := true |}.
Proof.
  intros Hswap. cbv zeta. unfold _processDamagePart. rewrite Hswap.
  cbn [mbind option_bind].
  destruct (String.eqb (item_type item) "weapon"); cbn [andb];
    [|now rewrite !app_nil_r].
  destruct ((negb (str_is (mode rollConfig) "offHand")
             || js_negative host
                  (roll_data (super_processDamagePart host swapped rollConfig
                                                      rollData) !! "mod"))
            && negb (existsb (fun p => includes p "@mod")
                       (roll_parts (super_processDamagePart host swapped
                                      rollConfig rollData))));
    destruct (truthy (item_magicalBonus item) && item_magicAvailable item);
    rewrite <- ?app_assoc, ?app_nil_r; reflexivity.
Qed.

Lemma str_is_eq (s : jsstr) (lit : string) :
  str_is s lit = true <-> s = Some lit.
Proof.
  destruct s as [s|]; cbn; [|split; discriminate].
  destruct (String.eqb_spec s lit); split; congruence.
Qed.

(** X17. [_processDamagePart] fails in exactly one situation: the item is
    versatile, the attack mode is "twoHanded", and the item has no
    versatile damage to clone.  In every other case it returns a roll. *)
Theorem processDamagePart_fails_iff
    (host : Host) (act : Activity) (item : Item) (actor : option Actor)
    (damage : DamagePart) (rollConfig : RollConfig)
    (rollData : gmap string jsval) :
  _processDamagePart host act item actor damage rollConfig rollData = None
  <-> item_isVersatile item = true
      /\ mode rollConfig = Some "twoHanded"
      /\ item_damage item ≫= damage_versatile = None.
Proof.
  rewrite <- str_is_eq.
  destruct (swapVersatile host item damage rollConfig) as [d|] eqn:Hswap.
  - rewrite (processDamagePart_shape host act item actor damage d rollConfig
               rollData Hswap).
    split; [discriminate|]. intros (Hv & Hm & Hd).
    unfold swapVersatile in Hswap. rewrite Hv, Hm, Hd in Hswap. discriminate Hswap.
  - split.
    + intros _. unfold swapVersatile in Hswap.
      destruct (item_isVersatile item), (str_is (mode rollConfig) "twoHanded");
        try discriminate Hswap.
      destruct (item_damage item ≫= damage_versatile); [discriminate Hswap|].
      auto.
    + intros _. unfold _processDamagePart. now rewrite Hswap.
Qed.

Example processDamagePart_missing_versatile :
  _processDamagePart plain_host (attack_activity "" "" false) broken_versatile
                     (Some hero) longsword_base twoHanded ∅ = None.
Proof. reflexivity. Qed.

(** X18. On a weapon, for every attack mode other than "offHand", the
    damage terms of the returned roll always have a term that mentions
    ["@mod"]: it is appended when the inherited method delivered none. *)
Theorem processDamagePart_mod_present
    (host : Host) (act : Activity) (item : Item) (actor : option Actor)
    (damage : DamagePart) (rollConfig : RollConfig)
    (rollData : gmap string jsval) (roll : Roll) :
  item_type item = "weapon" ->
  str_is (mode rollConfig) "offHand" = false ->
  _processDamagePart host act item actor damage rollConfig rollData = Some roll ->
  existsb (fun p => includes p "@mod") (roll_parts roll) = true.
Proof.
  intros Hweapon Hmode Hroll.
  destruct (swapVersatile host item damage rollConfig) as [d|] eqn:Hswap.
  - rewrite (processDamagePart_shape host act item actor damage d rollConfig
               rollData Hswap) in Hroll.
    injection Hroll as <-. cbn [roll_parts].
    rewrite Hweapon, Hmode. cbn [String.eqb Ascii.eqb Bool.eqb andb negb orb].
    rewrite !existsb_app.
    destruct (existsb _ (roll_parts _)); reflexivity.
  - unfold _processDamagePart in Hroll. rewrite Hswap in Hroll. discriminate Hroll.
Qed.

Lemma processDamagePart_mod_present_witness :
  exists roll,
    _processDamagePart plain_host (attack_activity "" "" false) longsword
                       (Some hero) fire_part oneHanded ∅ = Some roll
    /\ existsb (fun p => includes p "@mod") (roll_parts roll) = true.
Proof.
  eexists. split; [reflexivity|].
  exact (processDamagePart_mod_present plain_host (attack_activity "" "" false)
           longsword (Some hero) fire_part oneHanded ∅ _ eq_refl eq_refl eq_refl).
Defined.

(** X19. No ["@mod"] is appended to the damage of a weapon when a term of
    the inherited roll already mentions it, or when the attack is made
    off-hand and the modifier in the roll data is not negative: the terms
    are then those of the inherited roll, followed only by
    ["@magicalBonus"] when the item has an available magical bonus. *)
Theorem processDamagePart_mod_not_added
    (host : Host) (act : Activity) (item : Item) (actor : option Actor)
    (damage swapped : DamagePart) (rollConfig : RollConfig)
    (rollData : gmap string jsval) :
  let inherited_roll := super_processDamagePart host swapped rollConfig rollData in
  swapVersatile host item damage rollConfig = Some swapped ->
  item_type item = "weapon" ->
  existsb (fun p => includes p "@mod") (roll_parts inherited_roll) = true
  \/ (mode rollConfig = Some "offHand"
      /\ js_negative host (roll_data inherited_roll !! "mod") = false) ->
  exists roll,
    _processDamagePart host act item actor damage rollConfig rollData = Some roll
    /\ roll_parts roll =
         (roll_parts inherited_roll
          ++ (if truthy (item_magicalBonus item) && item_magicAvailable item
              then ["@magicalBonus"] else []))%list.
Proof.
  cbv zeta. intros Hswap Hweapon Hcase.
  rewrite (processDamagePart_shape host act item actor damage swapped rollConfig
             rollData Hswap).
  eexists. split; [reflexivity|]. cbn [roll_parts].
  rewrite Hweapon. cbn [String.eqb Ascii.eqb Bool.eqb andb].
  destruct Hcase as [Hhas|[Hmode Hneg]].
  - rewrite Hhas, andb_false_r. reflexivity.
  - rewrite Hmode, Hneg. reflexivity.
Qed.

Lemma processDamagePart_mod_not_added_witness :
  exists roll,
    _processDamagePart plain_host (attack_activity "" "" false) longsword_plus_one
                       (Some hero) longsword_base offHand ∅ = Some roll
    /\ roll_parts roll = ["1d8"; "@magicalBonus"].
Proof.
  refine (processDamagePart_mod_not_added plain_host
            (attack_activity "" "" false) longsword_plus_one (Some hero)
            longsword_base longsword_base offHand ∅ eq_refl eq_refl _).
  right. split; reflexivity.
Defined.

(** X20. For an item that is not a weapon the method adds nothing to the
    inherited roll: its terms and its data are returned as they are, and
    the roll is tagged [base = true]. *)
Theorem processDamagePart_not_weapon
    (host : Host) (act : Activity) (item : Item) (actor : option Actor)
    (damage swapped : DamagePart) (rollConfig : RollConfig)
    (rollData : gmap string jsval) :
  let inherited_roll := super_processDamagePart host swapped rollConfig rollData in
  swapVersatile host item damage rollConfig = Some swapped ->
  item_type item <> "weapon" ->
  exists roll,
    _processDamagePart host act item actor damage rollConfig rollData = Some roll
    /\ roll_parts roll = roll_parts inherited_roll
    /\ roll_data roll = roll_data inherited_roll
    /\ roll_base roll = true.
Proof.
  cbv zeta. intros Hswap Hweapon.
  rewrite (processDamagePart_shape host act item actor damage swapped rollConfig
             rollData Hswap).
  eexists. split; [reflexivity|]. cbn [roll_parts roll_data roll_base].
  destruct (String.eqb_spec (item_type item) "weapon"); [contradiction|].
  cbn [andb]. now rewrite !app_nil_r.
Qed.

Lemma processDamagePart_not_weapon_witness :
  let wand :=
    {| item_type := "consumable"; item_availableAbilities := None;
       item_criticalThreshold := None; item_attackType := Some "ranged";
       item_attackClassification := Some "spell"; item_prof := None;
       item_magicalBonus := JNum 2; item_magicAvailable := true;
       item_isVersatile := false; item_damage := None |} in
  exists roll,
    _processDamagePart plain_host spell_attack wand (Some hero) fire_part
                       oneHanded ∅ = Some roll
    /\ roll_parts roll = ["1d6"].
Proof.
  cbv zeta.
  edestruct (processDamagePart_not_weapon plain_host spell_attack
    {| item_type := "consumable"; item_availableAbilities := None;
       item_criticalThreshold := None; item_attackType := Some "ranged";
       item_attackClassification := Some "spell"; item_prof := None;
       item_magicalBonus := JNum 2; item_magicAvailable := true;
       item_isVersatile := false; item_damage := None |}
    (Some hero) fire_part fire_part oneHanded ∅ eq_refl)
    as (roll & Hroll & Hparts & _).
  - discriminate.
  - exists roll. split; [exact Hroll | exact Hparts].
Defined.

(** X21. Whenever the ["@magicalBonus"] term is appended (a weapon with a
    non-zero, available magical bonus) it is the last term of the roll and
    the bonus is bound to [magicalBonus] in the roll's data, which is
    otherwise the data of the inherited roll. *)
Theorem processDamagePart_magicalBonus
    (host : Host) (act : Activity) (item : Item) (actor : option Actor)
    (damage swapped : DamagePart) (rollConfig : RollConfig)
    (rollData : gmap string jsval) :
  let inherited_roll := super_processDamagePart host swapped rollConfig rollData in
  swapVersatile host item damage rollConfig = Some swapped ->
  item_type item = "weapon" ->
  truthy (item_magicalBonus item) = true ->
  item_magicAvailable item = true ->
  exists roll front,
    _processDamagePart host act item actor damage rollConfig rollData = Some roll
    /\ roll_parts roll = (front ++ ["@magicalBonus"])%list
    /\ roll_data roll !! "magicalBonus" = Some (item_magicalBonus item)
    /\ forall key, key <> "magicalBonus" ->
         roll_data roll !! key = roll_data inherited_roll !! key.
Proof.
  cbv zeta. intros Hswap Hweapon Hbonus Havailable.
  rewrite (processDamagePart_shape host act item actor damage swapped rollConfig
             rollData Hswap).
  rewrite Hweapon, Hbonus, Havailable.
  cbn [String.eqb Ascii.eqb Bool.eqb andb].
  eexists _, _. split; [reflexivity|]. cbn [roll_parts roll_data].
  split; [now rewrite app_assoc|]. split; [apply lookup_insert_eq|].
  intros key Hkey. now rewrite lookup_insert_ne by congruence.
Qed.

Lemma processDamagePart_magicalBonus_witness :
  exists roll front,
    _processDamagePart plain_host (attack_activity "" "" false) longsword_plus_one
                       (Some hero) longsword_base oneHanded ∅ = Some roll
    /\ roll_parts roll = (front ++ ["@magicalBonus"])%list
    /\ roll_data roll !! "magicalBonus" = Some (JNum 1).
Proof.
  destruct (processDamagePart_magicalBonus plain_host
              (attack_activity "" "" false) longsword_plus_one (Some hero)
              longsword_base longsword_base oneHanded ∅
              eq_refl eq_refl eq_refl eq_refl)
    as (roll & front & Hroll & Hparts & Hdata & _).
  exists roll, front. repeat split; assumption.
Defined.

(** X22. The only roll option that [_processDamagePart] ever writes is
    [critical.bonusDice]; and the options of the inherited roll are
    returned unchanged whenever there is no actor or the action type of
    the activity is not "mwak". *)
Theorem processDamagePart_options_frame
    (host : Host) (act : Activity) (item : Item) (actor : option Actor)
    (damage swapped : DamagePart) (rollConfig : RollConfig)
    (rollData : gmap string jsval) :
  let inherited_roll := super_processDamagePart host swapped rollConfig rollData in
  swapVersatile host item damage rollConfig = Some swapped ->
  exists roll,
    _processDamagePart host act item actor damage rollConfig rollData = Some roll
    /\ (forall key, key <> "critical.bonusDice" ->
          roll_options roll !! key = roll_options inherited_roll !! key)
    /\ (actor = None \/ actionType act <> "mwak" ->
          roll_options roll = roll_options inherited_roll).
Proof.
  cbv zeta. intros Hswap.
  rewrite (processDamagePart_shape host act item actor damage swapped rollConfig
             rollData Hswap).
  eexists. split; [reflexivity|]. cbn [roll_options]. split.
  - intros key Hkey.
    destruct (String.eqb (actionType act) "mwak" && _); [|reflexivity].
    now rewrite lookup_insert_ne by congruence.
  - intros [->|Hcode].
    + cbn [js_parseInt]. rewrite bool_decide_eq_true_2 by reflexivity.
      now rewrite andb_false_r.
    + destruct (String.eqb_spec (actionType act) "mwak"); [contradiction|].
      reflexivity.
Qed.

Lemma processDamagePart_options_frame_witness :
  exists roll,
    _processDamagePart plain_host spell_attack longsword (Some brutal_fighter)
                       fire_part oneHanded ∅ = Some roll
    /\ roll_options roll = ∅.
Proof.
  destruct (processDamagePart_options_frame plain_host spell_attack longsword
              (Some brutal_fighter) fire_part fire_part oneHanded ∅ eq_refl)
    as (roll & Hroll & _ & Hsame).
  exists roll. split; [exact Hroll|]. apply Hsame. right. discriminate.
Defined.

(** X23. For a melee weapon attack (action type "mwak") of an actor whose
    [meleeCriticalDamageDice] flag is a number other than zero, the roll
    gets that number as [options.critical.bonusDice]; a flag of zero
    leaves the options of the inherited roll unchanged.  The number is not
    required to be positive. *)
Theorem processDamagePart_critical_bonusDice
    (host : Host) (act : Activity) (item : Item) (actor : Actor)
    (damage swapped : DamagePart) (rollConfig : RollConfig)
    (rollData : gmap string jsval) (n : Z) :
  let inherited_roll := super_processDamagePart host swapped rollConfig rollData in
  swapVersatile host item damage rollConfig = Some swapped ->
  actionType act = "mwak" ->
  actor_meleeCriticalDamageDice actor = JNum n ->
  exists roll,
    _processDamagePart host act item (Some actor) damage rollConfig rollData
      = Some roll
    /\ roll_options roll =
         (if Z.eqb n 0 then roll_options inherited_roll
          else <["critical.bonusDice" := JNum n]> (roll_options inherited_roll)).
Proof.
  cbv zeta. intros Hswap Hcode Hflag.
  rewrite (processDamagePart_shape host act item (Some actor) damage swapped
             rollConfig rollData Hswap).
  eexists. split; [reflexivity|]. cbn [roll_options].
  rewrite Hcode, Hflag. cbn [String.eqb Ascii.eqb Bool.eqb andb js_parseInt].
  destruct (Z.eqb_spec n 0) as [->|Hn].
  - now rewrite bool_decide_eq_true_2.
  - rewrite bool_decide_eq_false_2 by congruence. reflexivity.
Qed.

Lemma processDamagePart_critical_bonusDice_witness :
  exists roll,
    _processDamagePart plain_host (attack_activity "" "" false) longsword
                       (Some brutal_fighter) longsword_base oneHanded ∅
      = Some roll
    /\ roll_options roll !! "critical.bonusDice" = Some (JNum 1).
Proof.
  destruct (processDamagePart_critical_bonusDice plain_host
              (attack_activity "" "" false) longsword brutal_fighter
              longsword_base longsword_base oneHanded ∅ 1
              eq_refl eq_refl eq_refl) as (roll & Hroll & Hoptions).
  exists roll. split; [exact Hroll|]. rewrite Hoptions. reflexivity.
Defined.

(* ===================================================================== *)
(** ** Damage roll configuration *)
(* ===================================================================== *)

Lemma nullish_assign_lookup (key : string) (value : jsval)
    (obj : gmap string jsval) :
  nullish_assign key value obj !! key =
    match obj !! key with
    | None | Some JUndef => Some value
    | Some v => Some v
    end.
Proof.
  unfold nullish_assign.
  destruct (obj !! key) as [[]|] eqn:Hkey;
    rewrite ?lookup_insert_eq, ?Hkey; reflexivity.
Qed.

Lemma nullish_assign_other (key other : string) (value : jsval)
    (obj : gmap string jsval) :
  other <> key -> nullish_assign key value obj !! other = obj !! other.
Proof.
  intros Hne. unfold nullish_assign.
  destruct (obj !! key) as [[]|]; rewrite ?lookup_insert_ne by congruence;
    reflexivity.
Qed.

(** X24. [getDamageConfig] adds the activity's critical bonus damage only
    where there is none: a [critical.bonusDamage] that the inherited
    configuration already carries (an empty string included) is kept, a
    missing or nullish one is set to [damage.critical.bonus] when that is
    non-empty, every other property of [critical] and the rest of the
    configuration are untouched, and with an empty bonus the inherited
    configuration is returned as it is. *)
Theorem getDamageConfig_bonusDamage
    (super_getDamageConfig : DamageConfig -> DamageConfig)
    (act : Activity) (config : DamageConfig) :
  let inherited_config := super_getDamageConfig config in
  let critical := default ∅ (config_critical inherited_config) in
  let result := getDamageConfig super_getDamageConfig act config in
  let bonus := damage_critical_bonus (damage act) in
  config_other result = config_other inherited_config
  /\ (forall key, key <> "bonusDamage" ->
        default ∅ (config_critical result) !! key = critical !! key)
  /\ default ∅ (config_critical result) !! "bonusDamage" =
       match critical !! "bonusDamage" with
       | None | Some JUndef =>
           if truthy_str bonus then Some (JStr (default "" bonus))
           else critical !! "bonusDamage"
       | Some v => Some v
       end
  /\ (truthy_str bonus = false -> result = inherited_config).
Proof.
  cbv zeta. unfold getDamageConfig.
  destruct (truthy_str (damage_critical_bonus (damage act)));
    cbn [config_other config_critical].
  - change (default ∅ (Some ?m)) with m.
    split; [reflexivity|]. split.
    + intros key Hkey. now apply nullish_assign_other.
    + split; [|discriminate]. rewrite nullish_assign_lookup.
      destruct (default ∅ (config_critical (super_getDamageConfig config))
                  !! "bonusDamage") as [[]|]; reflexivity.
  - repeat split; try reflexivity.
    destruct (default ∅ (config_critical (super_getDamageConfig config))
                !! "bonusDamage") as [[]|]; reflexivity.
Qed.

Lemma getDamageConfig_bonusDamage_witness :
  let act :=
    {| inherited := ∅; attack := melee_weapon_attack;
       damage := {| damage_critical_bonus := Some "";
                    damage_includeBase := true; damage_parts := [] |};
       labels := ∅ |} in
  let config :=
    {| config_critical := Some {["bonusDamage" := JStr "1d6"]};
       config_other := ∅ |} in
  getDamageConfig (fun c => c) act config = config.
Proof.
  cbv zeta.
  exact (proj2 (proj2 (proj2 (getDamageConfig_bonusDamage (fun c => c)
    {| inherited := ∅; attack := melee_weapon_attack;
       damage := {| damage_critical_bonus := Some "";
                    damage_includeBase := true; damage_parts := [] |};
       labels := ∅ |}
    {| config_critical := Some {["bonusDamage" := JStr "1d6"]};
       config_other := ∅ |}))) eq_refl).
Defined.

Example getDamageConfig_caller_wins :
  config_critical
    (getDamageConfig (fun c => c)
       {| inherited := ∅; attack := melee_weapon_attack;
          damage := {| damage_critical_bonus := Some "2d8";
                       damage_includeBase := true; damage_parts := [] |};
          labels := ∅ |}
       {| config_critical := Some {["bonusDamage" := JStr "1d6"]};
          config_other := ∅ |})
  = Some {["bonusDamage" := JStr "1d6"]}.
Proof. vm_compute. reflexivity. Qed.

Example getDamageConfig_fills :
  config_critical
    (getDamageConfig (fun c => c)
       {| inherited := ∅; attack := melee_weapon_attack;
          damage := {| damage_critical_bonus := Some "2d8";
                       damage_includeBase := true; damage_parts := [] |};
          labels := ∅ |}
       {| config_critical := None; config_other := ∅ |})
  = Some {["bonusDamage" := JStr "2d8"]}.
Proof. vm_compute. reflexivity. Qed.

(* ===================================================================== *)
(** ** Bounds and frames *)
(* ===================================================================== *)

(** X25. The critical threshold is never above an override that is set, on
    the activity or on the item, and it is always one of the set overrides
    or the default 20.  It is not capped: when the only overrides are
    above 20, so is the threshold. *)
Theorem criticalThreshold_bounds (act : Activity) (item : Item) :
  let a := attack_critical_threshold (attack act) in
  let i := item_criticalThreshold item in
  let t := criticalThreshold act item in
  match a with Some x => t <= x | None => True end
  /\ match i with Some y => t <= y | None => True end
  /\ (a = Some t \/ i = Some t \/ (a = None /\ i = None /\ t = 20)).
Proof.
  cbv zeta. unfold criticalThreshold, ext_min.
  destruct (attack_critical_threshold (attack act)) as [x|],
           (item_criticalThreshold item) as [y|];
    cbn [or_PosInf from_option ext_ltb].
  - destruct (Z.ltb_spec y x); cbn [ext_ltb]; repeat split; auto; lia.
  - repeat split; auto; lia.
  - repeat split; auto; lia.
  - repeat split; auto.
Qed.

Example criticalThreshold_above_20 :
  criticalThreshold
    (sample_activity
       (sample_attack None None (Some 25) false (Some "melee") (Some "weapon"))
       true [])
    plain_item = 25.
Proof. reflexivity. Qed.

(** X26. Of the attack activity's own fields the derived phase writes
    [attack.type] only: the stored ability, bonus, critical threshold and
    flat switch and the whole [damage] object are as before, and so is the
    critical threshold that the getter resolves. *)
Theorem prepareData_frame (host : Host) (act : Activity) (item : Item) :
  let act' := prepareData host act item in
  attack_ability (attack act') = attack_ability (attack act)
  /\ attack_bonus (attack act') = attack_bonus (attack act)
  /\ attack_critical_threshold (attack act')
     = attack_critical_threshold (attack act)
  /\ attack_flat (attack act') = attack_flat (attack act)
  /\ damage act' = damage act
  /\ criticalThreshold act' item = criticalThreshold act item.
Proof.
  cbv zeta. unfold prepareData.
  destruct (super_prepareData host (inherited act, labels act)) as [inh lbl].
  repeat split; reflexivity.
Qed.

(** X27. The versatile swap touches nothing unless the item is versatile
    and the attack is two-handed: in every other case the part that is
    processed is the given part itself, and the roll is built from what
    the inherited method returns for it. *)
Theorem swapVersatile_other_modes
    (host : Host) (act : Activity) (item : Item) (actor : option Actor)
    (damage : DamagePart) (rollConfig : RollConfig)
    (rollData : gmap string jsval) :
  item_isVersatile item = false \/ mode rollConfig <> Some "twoHanded" ->
  swapVersatile host item damage rollConfig = Some damage
  /\ exists roll extra,
       _processDamagePart host act item actor damage rollConfig rollData
         = Some roll
       /\ roll_parts roll =
            (roll_parts (super_processDamagePart host damage rollConfig rollData)
             ++ extra)%list.
Proof.
  intros Hcase.
  assert (Hswap : swapVersatile host item damage rollConfig = Some damage).
  { unfold swapVersatile. destruct Hcase as [->|Hmode]; [reflexivity|].
    destruct (str_is (mode rollConfig) "twoHanded") eqn:Hm.
    - apply str_is_eq in Hm. contradiction.
    - now rewrite andb_false_r. }
  split; [exact Hswap|].
  rewrite (processDamagePart_shape host act item actor damage damage rollConfig
             rollData Hswap).
  eexists _, _. split; reflexivity.
Qed.

Lemma swapVersatile_other_modes_witness :
  swapVersatile plain_host versatile_longsword longsword_base oneHanded
  = Some longsword_base.
Proof.
  refine (proj1 (swapVersatile_other_modes plain_host
                   (attack_activity "" "" false) versatile_longsword (Some hero)
                   longsword_base oneHanded ∅ _)).
  right. discriminate.
Defined.
